(** * Cultivation game: progression, currency ledger and status effects

    A shallow embedding of the progression and reward-resolution core of
    the cultivation game ([realm_stage_system.py], [spirit_stones.py],
    [player.py], [cultivation_encounters.py]) together with the
    properties checked against its specification.

    Python [int] is [Z].  Python [float] is IEEE 754 binary64, taken
    here as [spec_float] with the operations of the Standard Library's
    [SpecFloat] at precision 53 and maximal exponent 1024, so that every
    value below can be computed inside the logic. *)

From Stdlib Require Import ZArith List String Bool Lia.
From Stdlib Require Import Floats.SpecFloat.
Import ListNotations.

Local Open Scope Z_scope.

(** ** Python floats *)

Module Float64.

Definition prec : Z := 53.
Definition emax : Z := 1024.

Definition float : Type := spec_float.

Definition fadd : float -> float -> float := SFadd prec emax.
Definition fsub : float -> float -> float := SFsub prec emax.
Definition fmul : float -> float -> float := SFmul prec emax.
Definition fdiv : float -> float -> float := SFdiv prec emax.

Definition flt : float -> float -> bool := SFltb.
Definition fle : float -> float -> bool := SFleb.

(** [float(n)] for an integer [n]: the nearest binary64 value (exact up
    to 2^53 in magnitude). *)
Definition of_Z (n : Z) : float := binary_normalize prec emax n 0 false.

(** The decimal literal [n * 10^-k], rounded to nearest as a Python
    literal is: numerator and power of ten are both exact in binary64
    for the literals of this program, and the IEEE quotient of two
    exact values is the correctly rounded value of the fraction. *)
Definition dec (n : Z) (k : nat) : float :=
  fdiv (of_Z n) (of_Z (10 ^ Z.of_nat k)).

(** [x ** n] for a float [x] and an integer [n >= 0].  Python calls the
    C library's [pow]; it is taken as correctly rounded: the exact
    power of the binary value, rounded once to nearest even. *)
Definition pow_nat (x : float) (n : nat) : float :=
  match n with
  | O => of_Z 1
  | S _ =>
      match x with
      | S754_nan => S754_nan
      | S754_zero s => S754_zero (s && Nat.odd n)
      | S754_infinity s => S754_infinity (s && Nat.odd n)
      | S754_finite s m e =>
          let mag := Z.pow (Zpos m) (Z.of_nat n) in
          binary_normalize prec emax
            (if s && Nat.odd n then Z.opp mag else mag)
            (e * Z.of_nat n) false
      end
  end.

(** [int(x)]: truncation toward zero; Python raises on an infinity
    ([OverflowError]) and on a NaN ([ValueError]). *)
Definition to_int (x : float) : option Z :=
  match x with
  | S754_zero _ => Some 0
  | S754_infinity _ => None
  | S754_nan => None
  | S754_finite s m e =>
      let mag := if 0 <=? e then Zpos m * 2 ^ e else Zpos m / 2 ^ (- e) in
      Some (if s then - mag else mag)
  end.

(** The builtins [min(a, b)] and [max(a, b)] on two floats: the first
    argument is kept unless the second compares strictly below
    (above) it, so a NaN in second position is never chosen. *)
Definition py_min (a b : float) : float := if flt b a then b else a.
Definition py_max (a b : float) : float := if flt a b then b else a.

End Float64.

Import Float64.

(** ** Realms and stages ([realm_stage_system.py]) *)

Inductive CultivationRealm : Type :=
| BODY_TEMPERING
| QI_GATHERING
| FOUNDATION_BUILDING
| CORE_FORMATION
| NASCENT_SOUL
| SOUL_TRANSFORMATION
| VOID_REFINEMENT
| BODY_INTEGRATION
| MAHAYANA
| HEAVENLY_IMMORTAL.

(** A Python number: the foundation quality starts as an [int] and turns
    into a [float] as soon as a stage bonus ([stage * 2.0]) is added. *)
Inductive number : Type :=
| PyInt (n : Z)
| PyFloat (x : float).

(** The float an arithmetic operation with a float operand sees.  For an
    [int] it is [float(n)]; the true division [n / d] of two ints is the
    same as [float(n) / float(d)] as long as both are below 2^53 in
    magnitude, which covers every foundation quality and requirement
    of the game. *)
Definition to_float (a : number) : float :=
  match a with
  | PyInt n => of_Z n
  | PyFloat x => x
  end.

(** [a += b] for a float [b]. *)
Definition num_add_float (a : number) (b : float) : number :=
  PyFloat (fadd (to_float a) b).

(** [a < n] for an integer [n]. *)
Definition num_lt_int (a : number) (n : Z) : bool :=
  match a with
  | PyInt m => m <? n
  | PyFloat x => flt x (of_Z n)
  end.

(** [n - a] for an integer [n]. *)
Definition int_sub_num (n : Z) (a : number) : number :=
  match a with
  | PyInt m => PyInt (n - m)
  | PyFloat x => PyFloat (fsub (of_Z n) x)
  end.

Record RealmInfo : Type := mkRealmInfo {
  name : string;
  stage_exp_base : Z;
  stage_exp_multiplier : float;
  breakthrough_difficulty : float;
  lifespan_years : Z;
  power_multiplier : float;
  foundation_requirement : Z
}.

Module RealmStageManager.

(** [_initialize_realms]: the realm table (the [description] texts are
    left out). *)
Definition realms (realm : CultivationRealm) : RealmInfo :=
  match realm with
  | BODY_TEMPERING =>
      mkRealmInfo "Body Tempering" 50 (dec 12 1) (dec 8 1) 100 (dec 10 1) 20
  | QI_GATHERING =>
      mkRealmInfo "Qi Gathering" 80 (dec 125 2) (dec 10 1) 150 (dec 20 1) 40
  | FOUNDATION_BUILDING =>
      mkRealmInfo "Foundation Building" 120 (dec 13 1) (dec 12 1) 300 (dec 50 1) 80
  | CORE_FORMATION =>
      mkRealmInfo "Core Formation" 200 (dec 14 1) (dec 15 1) 500 (dec 120 1) 150
  | NASCENT_SOUL =>
      mkRealmInfo "Nascent Soul" 350 (dec 15 1) (dec 20 1) 1000 (dec 300 1) 250
  | SOUL_TRANSFORMATION =>
      mkRealmInfo "Soul Transformation" 600 (dec 16 1) (dec 25 1) 2000 (dec 750 1) 400
  | VOID_REFINEMENT =>
      mkRealmInfo "Void Refinement" 1000 (dec 17 1) (dec 30 1) 5000 (dec 1800 1) 600
  | BODY_INTEGRATION =>
      mkRealmInfo "Body Integration" 1800 (dec 18 1) (dec 40 1) 10000 (dec 4000 1) 900
  | MAHAYANA =>
      mkRealmInfo "Mahayana" 3000 (dec 20 1) (dec 50 1) 25000 (dec 10000 1) 1400
  | HEAVENLY_IMMORTAL =>
      mkRealmInfo "Heavenly Immortal" 5000 (dec 22 1) (dec 70 1) 100000 (dec 25000 1) 2000
  end.

(** [get_stage_exp_requirement]:
    [int(base_exp * (multiplier ** (stage - 1)))], and 0 outside
    stages 1 to 9.  The table's values are finite, so [int] always
    returns; the [None] of [to_int] is mapped to 0 only to keep the
    function total. *)
Definition get_stage_exp_requirement (realm : CultivationRealm) (stage : Z) : Z :=
  if (stage <? 1) || (stage >? 9) then 0
  else
    let realm_info := realms realm in
    let base_exp := stage_exp_base realm_info in
    let multiplier := stage_exp_multiplier realm_info in
    match to_int (fmul (of_Z base_exp) (pow_nat multiplier (Z.to_nat (stage - 1)))) with
    | Some n => n
    | None => 0
    end.

(** The reason returned by [can_breakthrough_realm] next to its
    boolean: each constructor stands for one of its three message
    strings. *)
Inductive breakthrough_reason : Type :=
| MustReachStage9 (stage : Z)
| FoundationTooWeak (needed : number)
| ReadyForAttempt.

Definition can_breakthrough_realm (realm : CultivationRealm) (stage : Z)
           (foundation_quality : number) : bool * breakthrough_reason :=
  if negb (stage =? 9) then (false, MustReachStage9 stage)
  else
    let realm_info := realms realm in
    if num_lt_int foundation_quality (foundation_requirement realm_info) then
      let needed := int_sub_num (foundation_requirement realm_info) foundation_quality in
      (false, FoundationTooWeak needed)
    else (true, ReadyForAttempt).

(** [calculate_breakthrough_success_rate]; [bonus_factors] is [None]
    or a dictionary given by its items in insertion order (only the
    values are read). *)
Definition calculate_breakthrough_success_rate (realm : CultivationRealm)
           (foundation_quality : number)
           (bonus_factors : option (list (string * float))) : float :=
  let realm_info := realms realm in
  let foundation_ratio :=
    fdiv (to_float foundation_quality) (of_Z (foundation_requirement realm_info)) in
  let base_rate :=
    py_min (dec 95 2)
           (fadd (dec 3 1) (fmul (fsub foundation_ratio (dec 10 1)) (dec 4 1))) in
  let difficulty_penalty :=
    fmul (fsub (breakthrough_difficulty realm_info) (dec 10 1)) (dec 1 1) in
  let final_rate := py_max (dec 5 2) (fsub base_rate difficulty_penalty) in
  let final_rate :=
    match bonus_factors with
    | None => final_rate
    | Some factors =>
        fold_left (fun rate factor => fadd rate (snd factor)) factors final_rate
    end in
  py_min (dec 95 2) (py_max (dec 5 2) final_rate).

(** [get_foundation_stage_bonus]: [stage * 2.0] at stages 3, 6 and 9. *)
Definition get_foundation_stage_bonus (stage : Z) : float :=
  if (stage =? 3) || (stage =? 6) || (stage =? 9)
  then fmul (of_Z stage) (dec 20 1)
  else dec 0 1.

End RealmStageManager.

(** The rate formula as the specification words it, with no clamp
    before the final one:
    [clamp(0.05, 0.95, 0.3 + (foundation/requirement - 1.0) * 0.4
                         - (difficulty - 1.0) * 0.1 + sum of bonus_factors)]. *)
Definition spec_clamp (lo hi x : float) : float := py_min hi (py_max lo x).

Definition spec_breakthrough_success_rate (realm : CultivationRealm)
           (foundation_quality : number) (bonus_factors : list (string * float))
  : float :=
  let realm_info := RealmStageManager.realms realm in
  let ratio :=
    fdiv (to_float foundation_quality) (of_Z (foundation_requirement realm_info)) in
  let unclamped :=
    fsub (fadd (dec 3 1) (fmul (fsub ratio (dec 10 1)) (dec 4 1)))
         (fmul (fsub (breakthrough_difficulty realm_info) (dec 10 1)) (dec 1 1)) in
  spec_clamp (dec 5 2) (dec 95 2)
    (fold_left (fun rate factor => fadd rate (snd factor)) bonus_factors unclamped).

(** ** Spirit stones ([spirit_stones.py]) *)

Inductive SpiritStoneGrade : Type := LOW | MID | HIGH | PEAK | DIVINE.

Definition grade_eq_dec (a b : SpiritStoneGrade) : {a = b} + {a <> b}.
Proof. decide equality. Defined.

(** [list(SpiritStoneGrade)]: the grades in declaration order. *)
Definition all_grades : list SpiritStoneGrade := [LOW; MID; HIGH; PEAK; DIVINE].

(** The inventory dictionary always holds the five grades as keys (they
    are all inserted by [__init__] and never deleted), so it is a record
    of five counts, read with [inv_get] and written with [inv_set]. *)
Record Inventory : Type := mkInventory {
  low : Z; mid : Z; high : Z; peak : Z; divine : Z
}.

Definition inv_get (inv : Inventory) (grade : SpiritStoneGrade) : Z :=
  match grade with
  | LOW => low inv | MID => mid inv | HIGH => high inv
  | PEAK => peak inv | DIVINE => divine inv
  end.

Definition inv_set (inv : Inventory) (grade : SpiritStoneGrade) (v : Z) : Inventory :=
  match grade with
  | LOW => mkInventory v (mid inv) (high inv) (peak inv) (divine inv)
  | MID => mkInventory (low inv) v (high inv) (peak inv) (divine inv)
  | HIGH => mkInventory (low inv) (mid inv) v (peak inv) (divine inv)
  | PEAK => mkInventory (low inv) (mid inv) (high inv) v (divine inv)
  | DIVINE => mkInventory (low inv) (mid inv) (high inv) (peak inv) v
  end.

Definition inv_nonneg (inv : Inventory) : Prop :=
  forall grade, 0 <= inv_get inv grade.

(** A cost dictionary [Dict[SpiritStoneGrade, int]], as its items in
    insertion order.  A dictionary holds each key once: [cost_wf]. *)
Definition Cost : Type := list (SpiritStoneGrade * Z).

Definition cost_wf (cost : Cost) : Prop := NoDup (map fst cost).

Module SpiritStoneManager.

Definition EXCHANGE_RATES (grade : SpiritStoneGrade) : Z :=
  match grade with
  | LOW => 1 | MID => 10 | HIGH => 100 | PEAK => 1000 | DIVINE => 10000
  end.

(** [__init__]: the starting stones. *)
Definition init : Inventory := mkInventory 50 15 3 0 0.

Definition add_stones (inv : Inventory) (grade : SpiritStoneGrade) (amount : Z)
  : Inventory :=
  inv_set inv grade (inv_get inv grade + amount).

Definition remove_stones (inv : Inventory) (grade : SpiritStoneGrade) (amount : Z)
  : bool * Inventory :=
  if inv_get inv grade >=? amount
  then (true, inv_set inv grade (inv_get inv grade - amount))
  else (false, inv).

Definition get_total_value_in_low_grade (inv : Inventory) : Z :=
  fold_left (fun total grade => total + inv_get inv grade * EXCHANGE_RATES grade)
            all_grades 0.

(** The [total_cost] loop shared by [_can_afford_with_conversion] and
    [_pay_with_conversion]. *)
Definition total_cost (cost : Cost) : Z :=
  fold_left (fun total item => total + snd item * EXCHANGE_RATES (fst item)) cost 0.

Definition _can_afford_with_conversion (inv : Inventory) (cost : Cost) : bool :=
  get_total_value_in_low_grade inv >=? total_cost cost.

(** The loop of [can_afford_cost] over the items still to visit: the
    first grade that is short hands over to the conversion check on
    the whole cost. *)
Fixpoint can_afford_loop (inv : Inventory) (cost items : Cost) : bool :=
  match items with
  | [] => true
  | (grade, amount) :: rest =>
      if inv_get inv grade <? amount
      then _can_afford_with_conversion inv cost
      else can_afford_loop inv cost rest
  end.

Definition can_afford_cost (inv : Inventory) (cost : Cost) : bool :=
  can_afford_loop inv cost cost.

(** The exact-payment loop of [pay_cost] on the copied inventory;
    [None] stands for [exact_payment = False] after the [break]. *)
Fixpoint exact_loop (temp_inventory : Inventory) (items : Cost) : option Inventory :=
  match items with
  | [] => Some temp_inventory
  | (grade, amount) :: rest =>
      if inv_get temp_inventory grade >=? amount
      then exact_loop
             (inv_set temp_inventory grade (inv_get temp_inventory grade - amount))
             rest
      else None
  end.

(** The loop of [_pay_with_conversion] over the grades still to visit,
    on the live inventory and the remaining cost. *)
Fixpoint conversion_loop (grades : list SpiritStoneGrade)
         (inv : Inventory) (remaining_cost : Z) : Inventory * Z :=
  match grades with
  | [] => (inv, remaining_cost)
  | grade :: rest =>
      if remaining_cost <=? 0 then (inv, remaining_cost)
      else
        let stones_available := inv_get inv grade in
        let stone_value := EXCHANGE_RATES grade in
        if (stones_available >? 0) && (remaining_cost >? 0) then
          let stones_to_use :=
            Z.min stones_available
                  ((remaining_cost + stone_value - 1) / stone_value) in
          conversion_loop rest
            (inv_set inv grade (stones_available - stones_to_use))
            (remaining_cost - stones_to_use * stone_value)
        else conversion_loop rest inv remaining_cost
  end.

Definition _pay_with_conversion (inv : Inventory) (cost : Cost) : bool * Inventory :=
  let '(inv', remaining_cost) :=
    conversion_loop (rev all_grades) inv (total_cost cost) in
  (remaining_cost <=? 0, inv').

(** [pay_cost] returns its boolean and the inventory it leaves. *)
Definition pay_cost (inv : Inventory) (cost : Cost) : bool * Inventory :=
  if negb (can_afford_cost inv cost) then (false, inv)
  else
    match exact_loop inv cost with
    | Some temp_inventory => (true, temp_inventory)
    | None => _pay_with_conversion inv cost
    end.

End SpiritStoneManager.

(** ** Encounter frequency ([cultivation_encounters.py]) *)

Inductive EncounterType : Type := BOTTLENECK | INSIGHT | ANOMALY | TECHNIQUE.

Record SmartEncounterManager : Type := mkSmartEncounterManager {
  last_encounter_session : Z;
  sessions_since_encounter : Z;
  recent_encounter_types : list EncounterType;
  drought_sessions : Z;
  base_chance : float
}.

Module EncounterManager.

(** [__init__]: no encounter yet, 6% base rate. *)
Definition init : SmartEncounterManager :=
  mkSmartEncounterManager 0 0 [] 0 (dec 6 2).

(** [_calculate_encounter_chance]; its [current_session] argument is
    not read by the body. *)
Definition _calculate_encounter_chance (self : SmartEncounterManager)
           (current_session : Z) : float :=
  let chance := base_chance self in
  let chance :=
    if sessions_since_encounter self >=? 15 then
      let drought_bonus :=
        py_min (dec 3 1)
               (fmul (of_Z (sessions_since_encounter self - 15)) (dec 2 2)) in
      fadd chance drought_bonus
    else chance in
  py_min chance (dec 4 1).

End EncounterManager.

(** ** Ongoing effects and the player ([player.py]) *)

(** An effect dictionary.  [name], [type] and [description] are present
    in every effect the program builds; the other keys are optional
    ([None]: the key is absent, or, for [remaining_duration], holds
    Python's [None], the two being the same to [dict.get]). *)
Module OngoingEffect.

Record t : Type := mk {
  name : string;
  type : string;
  description : string;
  exp_multiplier : option float;
  exp_bonus : option Z;
  exp_penalty : option Z;
  remaining_duration : option Z
}.

(** [effect['remaining_duration'] = d]. *)
Definition set_remaining_duration (effect : t) (d : Z) : t :=
  mk (name effect) (type effect) (description effect) (exp_multiplier effect)
     (exp_bonus effect) (exp_penalty effect) (Some d).

End OngoingEffect.

(** Effect dictionaries are mutable objects, and the active list holds
    references to them: the same object may be listed twice (a choice
    encounter appends its template itself, not a copy).  [Store] gives
    the current contents of every object. *)
Definition obj_id : Type := nat.

Definition Store : Type := obj_id -> OngoingEffect.t.

Definition store_set (heap : Store) (r : obj_id) (effect : OngoingEffect.t) : Store :=
  fun r' => if Nat.eqb r' r then effect else heap r'.

Record Player : Type := mkPlayer {
  realm : CultivationRealm;
  stage : Z;
  experience : Z;
  foundation_quality : number;
  ongoing_effects : list obj_id;
  spirit_stones : Inventory;
  effects_cured : Z
}.

Module EffectResolutionSystem.

Definition cure_costs : list (string * Cost) :=
  [ ("Qi Stagnation", [(LOW, 15); (MID, 2)]);
    ("Meridian Blockage", [(LOW, 25); (MID, 3)]);
    ("Foundation Cracks", [(MID, 5); (HIGH, 1)]);
    ("Cultivation Deviation", [(MID, 8); (HIGH, 2)]);
    ("Heart Demon", [(HIGH, 3); (PEAK, 1)]);
    ("Chaotic Qi", [(LOW, 20); (MID, 2)]);
    ("Elemental Imbalance", [(MID, 4); (HIGH, 1)]);
    ("Spiritual Corruption", [(HIGH, 2); (PEAK, 1)]);
    ("Dao Confusion", [(HIGH, 4); (PEAK, 2)]);
    ("Void Taint", [(PEAK, 2); (DIVINE, 1)]);
    ("Technique Backlash", [(LOW, 10); (MID, 1)]);
    ("Elemental Rejection", [(MID, 3); (HIGH, 1)]);
    ("Cultivation Instability", [(MID, 6); (HIGH, 2)]) ]%string.

(** [dict.get] on a dictionary given by its items. *)
Fixpoint dict_get {V : Type} (items : list (string * V)) (key : string) : option V :=
  match items with
  | [] => None
  | (k, v) :: rest => if String.eqb k key then Some v else dict_get rest key
  end.

Definition get_cure_cost (effect_name : string) : option Cost :=
  dict_get cure_costs effect_name.

(** In the two functions below [if not cost: return False] is the
    default branch: [not cost] holds of [None] and of an empty
    dictionary. *)
Definition can_cure_effect (inv : Inventory) (effect_name : string) : bool :=
  match get_cure_cost effect_name with
  | Some ((_ :: _) as cost) => SpiritStoneManager.can_afford_cost inv cost
  | _ => false
  end.

Definition cure_effect (inv : Inventory) (effect_name : string) : bool * Inventory :=
  match get_cure_cost effect_name with
  | Some ((_ :: _) as cost) => SpiritStoneManager.pay_cost inv cost
  | _ => (false, inv)
  end.

End EffectResolutionSystem.

Module EnhancedPlayer.

(** One constructor per message string of [add_experience]. *)
Inductive notice : Type :=
| FoundationStrengthened (foundation_bonus : float)
| AdvancedTo (realm : CultivationRealm) (stage : Z)
| ReadyForBreakthrough
| BreakthroughWarning (reason : RealmStageManager.breakthrough_reason).

Definition get_current_stage_exp_requirement (p : Player) : Z :=
  RealmStageManager.get_stage_exp_requirement (realm p) (stage p).

(** One pass through the body of the [while self.stage < 9] loop of
    [add_experience], once the requirement is met. *)
Definition advance_stage (p : Player) (required_exp : Z) (messages : list notice)
  : Player * list notice :=
  let experience' := experience p - required_exp in
  let stage' := stage p + 1 in
  let foundation_bonus := RealmStageManager.get_foundation_stage_bonus stage' in
  let '(foundation', messages) :=
    if flt (of_Z 0) foundation_bonus
    then (num_add_float (foundation_quality p) foundation_bonus,
          messages ++ [FoundationStrengthened foundation_bonus])
    else (foundation_quality p, messages) in
  let messages := messages ++ [AdvancedTo (realm p) stage'] in
  let messages :=
    if stage' =? 9 then
      let '(can_breakthrough, breakthrough_msg) :=
        RealmStageManager.can_breakthrough_realm (realm p) stage' foundation' in
      if can_breakthrough
      then messages ++ [ReadyForBreakthrough]
      else messages ++ [BreakthroughWarning breakthrough_msg]
    else messages in
  (mkPlayer (realm p) stage' experience' foundation'
            (ongoing_effects p) (spirit_stones p) (effects_cured p),
   messages).

(** The [while] loop, with one unit of fuel per iteration. *)
Fixpoint add_experience_loop (fuel : nat) (p : Player) (advanced : bool)
         (messages : list notice) : Player * bool * list notice :=
  match fuel with
  | O => (p, advanced, messages)
  | S fuel' =>
      if stage p <? 9 then
        let required_exp := get_current_stage_exp_requirement p in
        if experience p >=? required_exp then
          let '(p', messages') := advance_stage p required_exp messages in
          add_experience_loop fuel' p' true messages'
        else (p, advanced, messages)
      else (p, advanced, messages)
  end.

(** [add_experience]: every iteration raises the stage by one, so
    [9 - stage] iterations are enough (see
    [add_experience_loop_fuel]). *)
Definition add_experience (p : Player) (amount : Z) : Player * bool * list notice :=
  let p0 := mkPlayer (realm p) (stage p) (experience p + amount)
                     (foundation_quality p) (ongoing_effects p)
                     (spirit_stones p) (effects_cured p) in
  add_experience_loop (Z.to_nat (9 - stage p)) p0 false [].

(** The loop of [_apply_ongoing_effects]; [None] when [int] raises. *)
Fixpoint apply_effects_loop (heap : Store) (effects : list obj_id) (modified_exp : Z)
  : option Z :=
  match effects with
  | [] => Some modified_exp
  | r :: rest =>
      let effect := heap r in
      if String.eqb (OngoingEffect.type effect) "positive" then
        match OngoingEffect.exp_multiplier effect, OngoingEffect.exp_bonus effect with
        | Some multiplier, _ =>
            match to_int (fmul (of_Z modified_exp) multiplier) with
            | Some v => apply_effects_loop heap rest v
            | None => None
            end
        | None, Some bonus => apply_effects_loop heap rest (modified_exp + bonus)
        | None, None => apply_effects_loop heap rest modified_exp
        end
      else if String.eqb (OngoingEffect.type effect) "negative" then
        match OngoingEffect.exp_multiplier effect, OngoingEffect.exp_penalty effect with
        | Some multiplier, _ =>
            match to_int (fmul (of_Z modified_exp) multiplier) with
            | Some v => apply_effects_loop heap rest v
            | None => None
            end
        | None, Some penalty =>
            apply_effects_loop heap rest (Z.max 1 (modified_exp - penalty))
        | None, None => apply_effects_loop heap rest modified_exp
        end
      else apply_effects_loop heap rest modified_exp
  end.

Definition _apply_ongoing_effects (heap : Store) (p : Player) (base_exp : Z)
  : option Z :=
  apply_effects_loop heap (ongoing_effects p) base_exp.

(** The loop of [_cleanup_expired_effects]: it writes the decremented
    duration into the effect object and collects the references to
    keep. *)
Fixpoint cleanup_loop (heap : Store) (effects active_effects : list obj_id)
  : Store * list obj_id :=
  match effects with
  | [] => (heap, active_effects)
  | r :: rest =>
      match OngoingEffect.remaining_duration (heap r) with
      | None => cleanup_loop heap rest (active_effects ++ [r])
      | Some remaining =>
          if remaining >? 0 then
            cleanup_loop
              (store_set heap r
                 (OngoingEffect.set_remaining_duration (heap r) (remaining - 1)))
              rest (active_effects ++ [r])
          else cleanup_loop heap rest active_effects
      end
  end.

Definition _cleanup_expired_effects (heap : Store) (p : Player) : Store * Player :=
  let '(heap', active_effects) := cleanup_loop heap (ongoing_effects p) [] in
  (heap',
   mkPlayer (realm p) (stage p) (experience p) (foundation_quality p)
            active_effects (spirit_stones p) (effects_cured p)).

(** The search loop of [cure_effect]: the first effect with the given
    name and type ['negative'], with its index. *)
Fixpoint find_negative (heap : Store) (effects : list obj_id) (effect_name : string)
         (i : nat) : option (obj_id * nat) :=
  match effects with
  | [] => None
  | r :: rest =>
      if String.eqb (OngoingEffect.name (heap r)) effect_name
         && String.eqb (OngoingEffect.type (heap r)) "negative"
      then Some (r, i)
      else find_negative heap rest effect_name (S i)
  end.

(** [list.pop(i)] for an index within the list. *)
Fixpoint pop {A : Type} (l : list A) (i : nat) : list A :=
  match l, i with
  | [], _ => []
  | _ :: rest, O => rest
  | x :: rest, S i' => x :: pop rest i'
  end.

(** One constructor per message string of [cure_effect]. *)
Inductive cure_message : Type :=
| NotFoundOrNotNegative
| CannotAffordCure (cost : Cost)
| NotCurableWithStones
| CuredSuccessfully (effect_name : string)
| FailedToCure.

(** [cure_effect] only reads the effect objects; it returns its pair
    and the player it leaves.  A payment that fails has still run on
    the live inventory, which is why the last branch keeps [inv']. *)
Definition cure_effect (heap : Store) (p : Player) (effect_name : string)
  : (bool * cure_message) * Player :=
  match find_negative heap (ongoing_effects p) effect_name 0 with
  | None => ((false, NotFoundOrNotNegative), p)
  | Some (effect_to_cure, effect_index) =>
      if negb (EffectResolutionSystem.can_cure_effect (spirit_stones p) effect_name)
      then
        match EffectResolutionSystem.get_cure_cost effect_name with
        | Some ((_ :: _) as cost) => ((false, CannotAffordCure cost), p)
        | _ => ((false, NotCurableWithStones), p)
        end
      else
        let '(paid, inv') :=
          EffectResolutionSystem.cure_effect (spirit_stones p) effect_name in
        if paid then
          ((true, CuredSuccessfully effect_name),
           mkPlayer (realm p) (stage p) (experience p) (foundation_quality p)
                    (pop (ongoing_effects p) effect_index) inv'
                    (effects_cured p + 1))
        else
          ((false, FailedToCure),
           mkPlayer (realm p) (stage p) (experience p) (foundation_quality p)
                    (ongoing_effects p) inv' (effects_cured p))
  end.

End EnhancedPlayer.

(** ** Definitions used by the statements *)

(** The ledger and the cost of the conversion scenario:
    [{Low: 0, Mid: 2, High: 1}] and [{Mid: 5}]. *)
Definition scenario_ledger : Inventory := mkInventory 0 2 1 0 0.
Definition scenario_cost : Cost := [(MID, 5)].

(** What the stones of the listed grades can cover: the value of the
    positive counts. *)
Fixpoint usable_value (inv : Inventory) (grades : list SpiritStoneGrade) : Z :=
  match grades with
  | [] => 0
  | grade :: rest =>
      Z.max 0 (inv_get inv grade) * SpiritStoneManager.EXCHANGE_RATES grade
      + usable_value inv rest
  end.

(** The number of stage advancements announced in a message list. *)
Fixpoint count_advances (messages : list EnhancedPlayer.notice) : nat :=
  match messages with
  | [] => O
  | EnhancedPlayer.AdvancedTo _ _ :: rest => S (count_advances rest)
  | _ :: rest => count_advances rest
  end.

(** An encounter manager after a drought of 20 quiet sessions. *)
Definition drought_manager : SmartEncounterManager :=
  mkSmartEncounterManager 0 20 [] 0 (dec 6 2).

(** A player at the peak of Mahayana whose foundation just meets the
    requirement, with the bonus that [attempt_realm_breakthrough] grants
    for the initial foundation stability of 100. *)
Definition mahayana_foundation : number := PyInt 1400.
Definition stability_bonus : list (string * float) :=
  [("foundation_stability"%string, dec 2 2)].

(** What one duration tick does to an effect, told by its contents
    alone: it stays active when it is permanent or still has a positive
    duration, and in the latter case its duration drops by one. *)
Definition stays_active (effect : OngoingEffect.t) : bool :=
  match OngoingEffect.remaining_duration effect with
  | None => true
  | Some remaining => remaining >? 0
  end.

Definition ticked (effect : OngoingEffect.t) : OngoingEffect.t :=
  match OngoingEffect.remaining_duration effect with
  | None => effect
  | Some remaining =>
      if remaining >? 0
      then OngoingEffect.set_remaining_duration effect (remaining - 1)
      else effect
  end.

(** Effects of the program: the two permanent setbacks "Void Taint" and
    "Heart Demon" of the encounter catalog, "Qi Stagnation", and the
    "Qi Deviation" of a failed breakthrough with one session left. *)
Definition void_taint : OngoingEffect.t :=
  OngoingEffect.mk "Void Taint" "negative"
    "Void corruption threatens your very existence"
    (Some (dec 40 2)) None None None.

Definition heart_demon : OngoingEffect.t :=
  OngoingEffect.mk "Heart Demon" "negative"
    "Major cultivation obstruction affecting all progress"
    (Some (dec 50 2)) None None None.

Definition qi_stagnation : OngoingEffect.t :=
  OngoingEffect.mk "Qi Stagnation" "negative"
    "Cultivation speed reduced by 15%"
    (Some (dec 85 2)) None None None.

Definition qi_deviation_last_session : OngoingEffect.t :=
  OngoingEffect.mk "Qi Deviation" "negative"
    "Failed breakthrough caused qi instability"
    (Some (dec 7 1)) None None (Some 1).

(** The effect template of a choice encounter ([choice_encounters.py]),
    appended to the active list as it is, without a copy. *)
Definition pill_poisoning : OngoingEffect.t :=
  OngoingEffect.mk "Pill Poisoning" "negative"
    "Ancient pill caused spiritual poisoning"
    (Some (dec 8 1)) None None (Some 5).

(** Stores for the examples: object 0 and the objects after it. *)
Definition store_of (first other : OngoingEffect.t) : Store :=
  fun r => match r with O => first | S _ => other end.

(** A new player ([__init__]) with the given active effects and
    inventory. *)
Definition new_player (effects : list obj_id) (inv : Inventory) : Player :=
  mkPlayer BODY_TEMPERING 1 0 (PyInt 10) effects inv 0.

(** ** Further functions of the ledger, the realm table and the player *)

(** The deposit loop of [cultivate_with_choice]:
    [for grade, amount in spirit_reward.items()], each amount added with
    [add_stones] and counted in [spirit_stones_earned]. *)
Definition earn_spirit_stones (inv : Inventory) (spirit_stones_earned : Z)
           (spirit_reward : Cost) : Inventory * Z :=
  fold_left
    (fun state item =>
       (SpiritStoneManager.add_stones (fst state) (fst item) (snd item),
        snd state + snd item))
    spirit_reward (inv, spirit_stones_earned).

(** [EnhancedPlayer.get_negative_effects]. *)
Definition get_negative_effects (heap : Store) (p : Player) : list obj_id :=
  filter (fun e => String.eqb (OngoingEffect.type (heap e)) "negative")
         (ongoing_effects p).

(** [EffectResolutionSystem.get_curable_effects]. *)
Definition get_curable_effects (inv : Inventory) (heap : Store) (effects : list obj_id)
  : list obj_id :=
  filter (fun effect =>
            String.eqb (OngoingEffect.type (heap effect)) "negative"
            && EffectResolutionSystem.can_cure_effect inv
                 (OngoingEffect.name (heap effect)))
         effects.

Definition realm_eq_dec (a b : CultivationRealm) : {a = b} + {a <> b}.
Proof. decide equality. Defined.

(** [list.index(x)]; [None] stands for its [ValueError]. *)
Fixpoint list_index {A : Type} (eq_dec : forall a b : A, {a = b} + {a <> b})
         (l : list A) (x : A) : option nat :=
  match l with
  | [] => None
  | y :: rest =>
      if eq_dec y x then Some O
      else match list_index eq_dec rest x with
           | Some i => Some (S i)
           | None => None
           end
  end.

(** [l[i]] for a Python index: a negative index counts from the end;
    [None] stands for [IndexError]. *)
Definition list_item {A : Type} (l : list A) (i : Z) : option A :=
  let n := Z.of_nat (List.length l) in
  if (0 <=? i) && (i <? n) then nth_error l (Z.to_nat i)
  else if (- n <=? i) && (i <? 0) then nth_error l (Z.to_nat (n + i))
  else None.

(** [self.realm_order = list(CultivationRealm)]. *)
Definition realm_order : list CultivationRealm :=
  [BODY_TEMPERING; QI_GATHERING; FOUNDATION_BUILDING; CORE_FORMATION; NASCENT_SOUL;
   SOUL_TRANSFORMATION; VOID_REFINEMENT; BODY_INTEGRATION; MAHAYANA;
   HEAVENLY_IMMORTAL].

(** [RealmStageManager.get_next_realm]; a [ValueError] of [index] is
    caught and answered with [None]. *)
Definition get_next_realm (current_realm : CultivationRealm) : option CultivationRealm :=
  match list_index realm_eq_dec realm_order current_realm with
  | Some current_index =>
      if (current_index + 1 <? List.length realm_order)%nat
      then nth_error realm_order (current_index + 1)
      else None
  | None => None
  end.

(** The [realm_mapping] of [convert_old_level_to_realm_stage]. *)
Definition realm_mapping : list (Z * CultivationRealm) :=
  [(10, BODY_TEMPERING); (20, QI_GATHERING); (35, FOUNDATION_BUILDING);
   (55, CORE_FORMATION); (80, NASCENT_SOUL); (110, SOUL_TRANSFORMATION);
   (150, VOID_REFINEMENT); (200, BODY_INTEGRATION); (300, MAHAYANA);
   (999, HEAVENLY_IMMORTAL)].

Definition mapping_eq_dec (a b : Z * CultivationRealm) : {a = b} + {a <> b}.
Proof. decide equality; [apply realm_eq_dec | apply Z.eq_dec]. Defined.

(** The loop of [convert_old_level_to_realm_stage] over the entries
    still to visit; [None] when an index operation raises. *)
Fixpoint convert_loop (entries : list (Z * CultivationRealm)) (old_level : Z)
  : option (CultivationRealm * Z) :=
  match entries with
  | [] => Some (HEAVENLY_IMMORTAL, 9)
  | (level_cap, realm) :: rest =>
      if old_level <=? level_cap then
        let prev_cap :=
          if realm_eq_dec realm BODY_TEMPERING then Some 0
          else
            match list_index mapping_eq_dec realm_mapping (level_cap, realm) with
            | Some i =>
                match list_item realm_mapping (Z.of_nat i - 1) with
                | Some entry => Some (fst entry)
                | None => None
                end
            | None => None
            end in
        match prev_cap with
        | Some prev_cap =>
            let level_in_realm := old_level - prev_cap in
            let stage :=
              Z.min 9 (Z.max 1 ((level_in_realm * 9) / (level_cap - prev_cap) + 1)) in
            Some (realm, stage)
        | None => None
        end
      else convert_loop rest old_level
  end.

Definition convert_old_level_to_realm_stage (old_level : Z)
  : option (CultivationRealm * Z) :=
  convert_loop realm_mapping old_level.

(** The position of a realm in [realm_order]. *)
Definition realm_rank (realm : CultivationRealm) : Z :=
  match list_index realm_eq_dec realm_order realm with
  | Some i => Z.of_nat i
  | None => -1
  end.

(** The requirements of [n] consecutive stages from [stage] on. *)
Fixpoint requirement_sum (realm : CultivationRealm) (stage : Z) (n : nat) : Z :=
  match n with
  | O => 0
  | S n' =>
      RealmStageManager.get_stage_exp_requirement realm stage
      + requirement_sum realm (stage + 1) n'
  end.

(** [n] sessions' worth of duration ticks. *)
Fixpoint tick_sessions (n : nat) (heap : Store) (p : Player) : Store * Player :=
  match n with
  | O => (heap, p)
  | S n' =>
      let '(heap', p') := EnhancedPlayer._cleanup_expired_effects heap p in
      tick_sessions n' heap' p'
  end.

(** An effect that cannot pull experience below zero: its multiplier,
    if it has one, is not below zero, and its flat bonus, if it has
    one, is not negative. *)
Definition no_negative_modifier (effect : OngoingEffect.t) : Prop :=
  match OngoingEffect.exp_multiplier effect with
  | Some multiplier => flt multiplier (of_Z 0) = false
  | None => True
  end
  /\ match OngoingEffect.exp_bonus effect with
     | Some bonus => 0 <= bonus
     | None => True
     end.

(** ** Encounter selection and tracking ([cultivation_encounters.py]) *)

Definition encounter_type_eq_dec (a b : EncounterType) : {a = b} + {a <> b}.
Proof. decide equality. Defined.

(** [list(EncounterType)] and [EncounterType.value]. *)
Definition all_encounter_types : list EncounterType :=
  [BOTTLENECK; INSIGHT; ANOMALY; TECHNIQUE].

Definition encounter_type_value (t : EncounterType) : string :=
  match t with
  | BOTTLENECK => "bottleneck"
  | INSIGHT => "insight"
  | ANOMALY => "anomaly"
  | TECHNIQUE => "technique"
  end.

(** The random source is an explicit argument.  For
    [random.choices(population, weights)[0]] it is the position drawn in
    the population: the weights shape how likely each position is, not
    which ones exist.  [None] stands for the [IndexError] on an empty
    population (and for a position that is no outcome). *)
Definition random_choices {A : Type} (population : list A) (weights : list Z)
           (draw : nat) : option A :=
  nth_error population draw.

(** [_select_encounter_type]. *)
Definition _select_encounter_type (self : SmartEncounterManager) (draw : nat)
  : option EncounterType :=
  let available_types := all_encounter_types in
  let recent := recent_encounter_types self in
  let available_types :=
    if (2 <=? List.length recent)%nat then
      let recent_set := skipn (List.length recent - 2) recent in
      let non_recent :=
        filter (fun t => negb (existsb (fun t' => if encounter_type_eq_dec t t'
                                                  then true else false) recent_set))
               available_types in
      match non_recent with
      | [] => available_types
      | _ :: _ => non_recent
      end
    else available_types in
  let weights :=
    map (fun t => match t with
                  | INSIGHT => 40 | TECHNIQUE => 30 | BOTTLENECK => 20 | ANOMALY => 10
                  end)
        available_types in
  random_choices available_types weights draw.

(** The manager together with its [_session_counter] attribute, which
    does not exist ([None]) until [process_encounter] first sets it. *)
Record EncounterState : Type := mkEncounterState {
  manager : SmartEncounterManager;
  _session_counter : option Z
}.

(** [process_encounter].  [roll] is the value of [random.random()],
    [draw] the position drawn for the encounter type, and [encounter]
    what [_select_encounter] returns for the chosen type; the realm,
    level and effect arguments of the source are not read by the
    tracking.  The outer [None] is an exception from the type draw. *)
Definition process_encounter {E : Type} (st : EncounterState)
           (current_session : option Z) (roll : float) (draw : nat)
           (encounter : EncounterType -> E)
  : option (option (string * E) * EncounterState) :=
  let '(current_session, counter) :=
    match current_session with
    | Some c => (c, _session_counter st)
    | None =>
        let c := match _session_counter st with Some c => c | None => 0 end in
        (c, Some (c + 1))
    end in
  let self := manager st in
  let self :=
    mkSmartEncounterManager (last_encounter_session self)
      (sessions_since_encounter self + 1) (recent_encounter_types self)
      (drought_sessions self) (base_chance self) in
  let encounter_chance :=
    EncounterManager._calculate_encounter_chance self current_session in
  if flt roll encounter_chance then
    match _select_encounter_type self draw with
    | Some encounter_type =>
        let recent := recent_encounter_types self ++ [encounter_type] in
        let recent := if (5 <? List.length recent)%nat then tl recent else recent in
        Some (Some (encounter_type_value encounter_type, encounter encounter_type),
              mkEncounterState
                (mkSmartEncounterManager current_session 0 recent
                   (drought_sessions self) (base_chance self))
                counter)
    | None => None
    end
  else Some (None, mkEncounterState self counter).

(** ** Saving and loading a player ([player.py]) *)

(** [CultivationRealm.value], and [CultivationRealm(s)], the lookup of a
    member by its value; [None] stands for its [ValueError]. *)
Definition realm_value (realm : CultivationRealm) : string :=
  match realm with
  | BODY_TEMPERING => "Body Tempering"
  | QI_GATHERING => "Qi Gathering"
  | FOUNDATION_BUILDING => "Foundation Building"
  | CORE_FORMATION => "Core Formation"
  | NASCENT_SOUL => "Nascent Soul"
  | SOUL_TRANSFORMATION => "Soul Transformation"
  | VOID_REFINEMENT => "Void Refinement"
  | BODY_INTEGRATION => "Body Integration"
  | MAHAYANA => "Mahayana"
  | HEAVENLY_IMMORTAL => "Heavenly Immortal"
  end.

Definition realm_of_value (s : string) : option CultivationRealm :=
  find (fun realm => String.eqb (realm_value realm) s) realm_order.

(** [SpiritStoneGrade.value] and [SpiritStoneGrade(s)]. *)
Definition grade_value (grade : SpiritStoneGrade) : string :=
  match grade with
  | LOW => "Low-Grade"
  | MID => "Mid-Grade"
  | HIGH => "High-Grade"
  | PEAK => "Peak-Grade"
  | DIVINE => "Divine-Grade"
  end.

Definition grade_of_value (s : string) : option SpiritStoneGrade :=
  find (fun grade => String.eqb (grade_value grade) s) all_grades.

(** The save dictionary, for the keys that hold the fields of [Player];
    a key may be missing from a dictionary that is loaded ([None]). *)
Module SaveData.

Record t : Type := mk {
  realm : option string;
  stage : option Z;
  experience : option Z;
  foundation_quality : option number;
  ongoing_effects : option (list obj_id);
  spirit_stones : option (list (string * Z));
  effects_cured : option Z
}.

(** [d.get(key, default)]. *)
Definition get {A : Type} (field : option A) (default : A) : A :=
  match field with
  | Some v => v
  | None => default
  end.

End SaveData.

(** [to_save_data], on the fields of [Player]. *)
Definition to_save_data (p : Player) : SaveData.t :=
  SaveData.mk
    (Some (realm_value (realm p)))
    (Some (stage p))
    (Some (experience p))
    (Some (foundation_quality p))
    (Some (ongoing_effects p))
    (Some (map (fun grade => (grade_value grade, inv_get (spirit_stones p) grade))
               all_grades))
    (Some (effects_cured p)).

(** The spirit stone loop of [from_save_data]: a grade name that is no
    value of [SpiritStoneGrade] is skipped ([except ValueError:
    continue]). *)
Definition load_spirit_stones (inv : Inventory) (items : list (string * Z)) : Inventory :=
  fold_left
    (fun inv item =>
       match grade_of_value (fst item) with
       | Some grade => inv_set inv grade (snd item)
       | None => inv
       end)
    items inv.

(** [from_save_data], on the fields of [Player]: a fresh player
    ([__init__], with its starting stones) overwritten field by field. *)
Definition from_save_data (save_data : SaveData.t) : Player :=
  let realm :=
    match realm_of_value (SaveData.get (SaveData.realm save_data) "Body Tempering"%string) with
    | Some realm => realm
    | None => BODY_TEMPERING
    end in
  let inventory :=
    match SaveData.spirit_stones save_data with
    | Some items => load_spirit_stones SpiritStoneManager.init items
    | None => SpiritStoneManager.init
    end in
  mkPlayer realm
           (SaveData.get (SaveData.stage save_data) 1)
           (SaveData.get (SaveData.experience save_data) 0)
           (SaveData.get (SaveData.foundation_quality save_data) (PyInt 10))
           (SaveData.get (SaveData.ongoing_effects save_data) [])
           inventory
           (SaveData.get (SaveData.effects_cured save_data) 0).

(** * Properties *)

(** ** The currency ledger *)

Section Ledger.

Import SpiritStoneManager.

Lemma inv_get_set_same inv grade v :
  inv_get (inv_set inv grade v) grade = v.
Proof. destruct grade; reflexivity. Qed.

Lemma inv_get_set_other inv grade grade' v :
  grade' <> grade -> inv_get (inv_set inv grade v) grade' = inv_get inv grade'.
Proof. destruct grade, grade'; intros Hne; try reflexivity; congruence. Qed.

Lemma inv_set_nonneg inv grade v :
  inv_nonneg inv -> 0 <= v -> inv_nonneg (inv_set inv grade v).
Proof.
  intros Hinv Hv grade'.
  destruct (grade_eq_dec grade' grade) as [-> | Hne].
  - rewrite inv_get_set_same. exact Hv.
  - rewrite inv_get_set_other by exact Hne. apply Hinv.
Qed.

Lemma EXCHANGE_RATES_pos grade : 0 < EXCHANGE_RATES grade.
Proof. destruct grade; reflexivity. Qed.

Lemma rev_all_grades_NoDup : NoDup (rev all_grades).
Proof. simpl. repeat constructor; simpl; intuition discriminate. Qed.

(** *** Exact payment *)

Lemma exact_loop_nonneg items :
  forall temp temp',
    inv_nonneg temp -> exact_loop temp items = Some temp' -> inv_nonneg temp'.
Proof.
  induction items as [| [grade amount] rest IH]; simpl; intros temp temp' Hnn Hex.
  - injection Hex as <-. exact Hnn.
  - destruct (inv_get temp grade >=? amount) eqn:Hge; [| discriminate].
    apply Z.geb_le in Hge.
    refine (IH _ _ _ Hex). apply inv_set_nonneg; [exact Hnn | lia].
Qed.

(** When the exact loop gives up, a grade of the cost is short in the
    inventory, and [can_afford_cost] has answered with the conversion
    check. *)
Lemma exact_loop_none_short inv cost items :
  forall temp,
    NoDup (map fst items) ->
    (forall grade, In grade (map fst items) -> inv_get temp grade = inv_get inv grade) ->
    exact_loop temp items = None ->
    can_afford_loop inv cost items = _can_afford_with_conversion inv cost.
Proof.
  induction items as [| [grade amount] rest IH]; simpl; intros temp Hnd Hagree Hex.
  - discriminate.
  - inversion Hnd as [| ? ? Hnotin Hnd']; subst.
    rewrite (Hagree grade (or_introl eq_refl)) in Hex.
    destruct (inv_get inv grade >=? amount) eqn:Hge.
    + assert ((inv_get inv grade <? amount) = false) as -> by lia.
      refine (IH _ Hnd' _ Hex).
      intros grade' Hin.
      rewrite inv_get_set_other; [apply Hagree; right; exact Hin |].
      intros ->. exact (Hnotin Hin).
    + assert ((inv_get inv grade <? amount) = true) as -> by lia.
      reflexivity.
Qed.

(** *** Payment with conversion *)

Lemma conversion_loop_done grades inv remaining :
  remaining <= 0 -> conversion_loop grades inv remaining = (inv, remaining).
Proof.
  intros Hle. destruct grades as [| grade rest]; simpl; [reflexivity |].
  apply Z.leb_le in Hle. rewrite Hle. reflexivity.
Qed.

Lemma usable_value_set_other inv grade v grades :
  ~ In grade grades -> usable_value (inv_set inv grade v) grades = usable_value inv grades.
Proof.
  induction grades as [| grade' rest IH]; simpl; intros Hnotin; [reflexivity |].
  rewrite inv_get_set_other by (intros ->; apply Hnotin; left; reflexivity).
  rewrite IH by (intros Hin; apply Hnotin; right; exact Hin).
  reflexivity.
Qed.

Lemma ceil_div_covers remaining stone_value :
  0 < stone_value ->
  remaining <= (remaining + stone_value - 1) / stone_value * stone_value.
Proof.
  intros Hpos.
  pose proof (Z.mul_succ_div_gt (remaining + stone_value - 1) stone_value Hpos).
  lia.
Qed.

(** The greedy loop covers every cost that the positive counts of the
    grades it visits can cover. *)
Lemma conversion_loop_covers grades :
  forall inv remaining,
    NoDup grades ->
    remaining <= usable_value inv grades ->
    snd (conversion_loop grades inv remaining) <= 0.
Proof.
  induction grades as [| grade rest IH]; simpl; intros inv remaining Hnd Hle.
  - exact Hle.
  - inversion Hnd as [| ? ? Hnotin Hnd']; subst.
    destruct (remaining <=? 0) eqn:Hrem; simpl; [lia |].
    pose proof (EXCHANGE_RATES_pos grade) as Hrate.
    destruct ((inv_get inv grade >? 0) && (remaining >? 0)) eqn:Huse.
    + apply andb_prop in Huse as [Havail _].
      pose proof (ceil_div_covers remaining _ Hrate) as Hceil.
      destruct (Z.min_spec (inv_get inv grade)
                  ((remaining + EXCHANGE_RATES grade - 1) / EXCHANGE_RATES grade))
        as [[Hlt ->] | [Hge ->]].
      * apply IH; [exact Hnd' |].
        rewrite usable_value_set_other by exact Hnotin. lia.
      * rewrite conversion_loop_done by lia. simpl. lia.
    + apply IH; [exact Hnd' |].
      apply andb_false_iff in Huse as [Havail | Hrem']; lia.
Qed.

Lemma conversion_loop_nonneg grades :
  forall inv remaining,
    inv_nonneg inv -> inv_nonneg (fst (conversion_loop grades inv remaining)).
Proof.
  induction grades as [| grade rest IH]; simpl; intros inv remaining Hnn.
  - exact Hnn.
  - destruct (remaining <=? 0); simpl; [exact Hnn |].
    destruct ((inv_get inv grade >? 0) && (remaining >? 0)).
    + apply IH. apply inv_set_nonneg; [exact Hnn | lia].
    + apply IH. exact Hnn.
Qed.

Lemma total_value_le_usable inv :
  get_total_value_in_low_grade inv <= usable_value inv (rev all_grades).
Proof.
  destruct inv as [l m h p d].
  unfold get_total_value_in_low_grade. simpl. lia.
Qed.

(** *** Payment after a positive affordability check *)

Lemma pay_cost_succeeds inv cost :
  cost_wf cost -> can_afford_cost inv cost = true -> fst (pay_cost inv cost) = true.
Proof.
  intros Hwf Hafford. unfold pay_cost. rewrite Hafford. simpl.
  destruct (exact_loop inv cost) eqn:Hexact; [reflexivity |].
  unfold can_afford_cost in Hafford.
  rewrite (exact_loop_none_short inv cost cost inv Hwf (fun _ _ => eq_refl) Hexact)
    in Hafford.
  unfold _can_afford_with_conversion in Hafford.
  unfold _pay_with_conversion.
  pose proof (conversion_loop_covers (rev all_grades) inv (total_cost cost)
                rev_all_grades_NoDup) as Hcov.
  apply Z.geb_le in Hafford.
  pose proof (total_value_le_usable inv) as Husable.
  specialize (Hcov ltac:(lia)).
  destruct (conversion_loop (rev all_grades) inv (total_cost cost)) as [inv' rem].
  apply Z.leb_le. exact Hcov.
Qed.

Lemma pay_cost_nonneg inv cost :
  inv_nonneg inv -> inv_nonneg (snd (pay_cost inv cost)).
Proof.
  intros Hnn. unfold pay_cost.
  destruct (negb (can_afford_cost inv cost)); [exact Hnn |].
  destruct (exact_loop inv cost) eqn:Hexact.
  - exact (exact_loop_nonneg _ _ _ Hnn Hexact).
  - unfold _pay_with_conversion.
    pose proof (conversion_loop_nonneg (rev all_grades) inv (total_cost cost) Hnn) as H.
    destruct (conversion_loop (rev all_grades) inv (total_cost cost)). exact H.
Qed.

End Ledger.

Section LedgerClaims.

Import SpiritStoneManager.

(** C1, as stated, fails: in the scenario [{Low: 0, Mid: 2, High: 1}]
    paying [{Mid: 5}] does succeed, but the ledger's total value
    afterwards is not within [old_total - 50 .. old_total]: the
    payment leaves 20, below 70. *)
Lemma pay_cost_scenario_value_below_bound :
  ~ (fst (pay_cost scenario_ledger scenario_cost) = true
     /\ get_total_value_in_low_grade scenario_ledger - 50
        <= get_total_value_in_low_grade (snd (pay_cost scenario_ledger scenario_cost))
        <= get_total_value_in_low_grade scenario_ledger).
Proof.
  intros [_ [Hlow _]]. vm_compute in Hlow. apply Hlow. reflexivity.
Qed.

(** C1, amended: the ledger [{Low: 0, Mid: 2, High: 1}] is worth 120
    and the cost [{Mid: 5}] is worth 50; the Mid count alone does not
    pay it, the affordability check passes by total value, and
    [pay_cost] succeeds through conversion.  It consumes the whole
    High stone and returns no change: the ledger left is
    [{Low: 0, Mid: 2, High: 0}], worth 20 = old_total - 100.  So the
    new total [v] satisfies [old_total - 50 - 99 <= v <= old_total - 50]
    (the cost is covered, the overpayment stays below one stone of the
    grade used), and in particular [v <= old_total]: no currency is
    created. *)
Theorem pay_cost_scenario_conversion :
  get_total_value_in_low_grade scenario_ledger = 120
  /\ total_cost scenario_cost = 50
  /\ exact_loop scenario_ledger scenario_cost = None
  /\ can_afford_cost scenario_ledger scenario_cost = true
  /\ pay_cost scenario_ledger scenario_cost = (true, mkInventory 0 2 0 0 0)
  /\ get_total_value_in_low_grade (snd (pay_cost scenario_ledger scenario_cost)) = 20
  /\ get_total_value_in_low_grade scenario_ledger - 50 - 99
     <= get_total_value_in_low_grade (snd (pay_cost scenario_ledger scenario_cost))
     <= get_total_value_in_low_grade scenario_ledger - 50
  /\ get_total_value_in_low_grade (snd (pay_cost scenario_ledger scenario_cost))
     <= get_total_value_in_low_grade scenario_ledger.
Proof.
  vm_compute. repeat split; discriminate.
Qed.

(** C2: for every cost dictionary and every ledger, once
    [can_afford_cost] has returned true, [pay_cost] returns true; and
    it leaves no negative count in a ledger that had none. *)
Theorem pay_cost_after_can_afford (inv : Inventory) (cost : Cost) :
  cost_wf cost ->
  can_afford_cost inv cost = true ->
  fst (pay_cost inv cost) = true
  /\ (inv_nonneg inv -> inv_nonneg (snd (pay_cost inv cost))).
Proof.
  intros Hwf Hafford. split.
  - exact (pay_cost_succeeds inv cost Hwf Hafford).
  - apply pay_cost_nonneg.
Qed.

Lemma pay_cost_after_can_afford_witness :
  fst (pay_cost scenario_ledger scenario_cost) = true
  /\ inv_nonneg (snd (pay_cost scenario_ledger scenario_cost)).
Proof.
  assert (Hwf : cost_wf scenario_cost).
  { unfold cost_wf. simpl. repeat constructor. simpl. intuition. }
  assert (Hafford : can_afford_cost scenario_ledger scenario_cost = true)
    by reflexivity.
  destruct (pay_cost_after_can_afford scenario_ledger scenario_cost Hwf Hafford)
    as [Hpaid Hnonneg].
  split; [exact Hpaid |].
  apply Hnonneg. intros grade. destruct grade; simpl; lia.
Defined.

(** C9, as stated, fails: [add_stones] does not reject a negative
    amount; adding -1 Low stone to the starting inventory changes it
    and lowers the Low count. *)
Lemma add_stones_negative_amount_decreases :
  add_stones init LOW (-1) <> init
  /\ inv_get (add_stones init LOW (-1)) LOW < inv_get init LOW.
Proof.
  split; [discriminate | reflexivity].
Qed.

(** C9, amended: [add_stones] validates nothing and adds the amount to
    the count of the given grade, leaving the other counts as they
    are; so for every non-negative amount no count decreases. *)
Theorem add_stones_deposit (inv : Inventory) (grade : SpiritStoneGrade) (amount : Z) :
  0 <= amount ->
  inv_get (add_stones inv grade amount) grade = inv_get inv grade + amount
  /\ (forall grade', grade' <> grade ->
        inv_get (add_stones inv grade amount) grade' = inv_get inv grade')
  /\ (forall grade', inv_get inv grade' <= inv_get (add_stones inv grade amount) grade').
Proof.
  intros Hamount. unfold add_stones. repeat split.
  - apply inv_get_set_same.
  - intros grade' Hne. apply inv_get_set_other. exact Hne.
  - intros grade'. destruct (grade_eq_dec grade' grade) as [-> | Hne].
    + rewrite inv_get_set_same. lia.
    + rewrite inv_get_set_other by exact Hne. lia.
Qed.

Lemma add_stones_deposit_witness :
  inv_get (add_stones init MID 4) MID = 19
  /\ inv_get (add_stones init MID 4) LOW = 50
  /\ inv_get init HIGH <= inv_get (add_stones init MID 4) HIGH.
Proof.
  destruct (add_stones_deposit init MID 4 ltac:(lia)) as [Hsame [Hother Hmono]].
  split; [exact Hsame |].
  split; [apply Hother; discriminate | apply Hmono].
Defined.

End LedgerClaims.

(** ** Stage requirements and experience *)

Section Progression.

Import RealmStageManager EnhancedPlayer.

Lemma count_advances_app messages messages' :
  count_advances (messages ++ messages')
  = (count_advances messages + count_advances messages')%nat.
Proof.
  induction messages as [| m rest IH]; simpl; [reflexivity |].
  destruct m; simpl; rewrite IH; reflexivity.
Qed.

(** One pass through the loop body raises the stage by one, consumes
    the requirement and announces one advancement. *)
Lemma advance_stage_spec p required_exp messages :
  let r := advance_stage p required_exp messages in
  realm (fst r) = realm p
  /\ stage (fst r) = stage p + 1
  /\ experience (fst r) = experience p - required_exp
  /\ ongoing_effects (fst r) = ongoing_effects p
  /\ spirit_stones (fst r) = spirit_stones p
  /\ effects_cured (fst r) = effects_cured p
  /\ count_advances (snd r) = S (count_advances messages).
Proof.
  unfold advance_stage.
  destruct (flt (of_Z 0) (get_foundation_stage_bonus (stage p + 1)));
    destruct (stage p + 1 =? 9);
    try destruct (can_breakthrough_realm _ _ _) as [[] reason];
    cbn [fst snd realm stage experience ongoing_effects spirit_stones effects_cured];
    repeat rewrite count_advances_app; simpl; repeat split; lia.
Qed.

(** The fuel given by [add_experience] is enough: with at least
    [9 - stage] units the loop stops because its own exit condition
    holds, never because the fuel ran out. *)
Lemma add_experience_loop_fuel fuel :
  forall p advanced messages,
    9 - stage p <= Z.of_nat fuel ->
    let p' := fst (fst (add_experience_loop fuel p advanced messages)) in
    9 <= stage p' \/ experience p' < get_current_stage_exp_requirement p'.
Proof.
  induction fuel as [| fuel IH]; intros p advanced messages Hfuel; cbv zeta.
  - left. cbn [add_experience_loop fst]. lia.
  - cbn [add_experience_loop].
    destruct (stage p <? 9) eqn:Hstage; [| left; cbn [fst]; lia].
    destruct (experience p >=? get_current_stage_exp_requirement p) eqn:Hexp;
      [| right; cbn [fst]; lia].
    pose proof (advance_stage_spec p (get_current_stage_exp_requirement p) messages)
      as Hadv.
    destruct (advance_stage p (get_current_stage_exp_requirement p) messages)
      as [p1 messages1].
    cbn [fst snd] in Hadv. destruct Hadv as (_ & Hst & _).
    apply IH. lia.
Qed.

(** From stage 8 a grant that meets the requirement of stage 8 runs
    the loop body exactly once. *)
Lemma add_experience_from_stage_8 p amount :
  stage p = 8 ->
  get_stage_exp_requirement (realm p) 8 <= experience p + amount ->
  add_experience p amount
  = (let r := advance_stage
                (mkPlayer (realm p) (stage p) (experience p + amount)
                          (foundation_quality p) (ongoing_effects p)
                          (spirit_stones p) (effects_cured p))
                (get_stage_exp_requirement (realm p) 8) [] in
     (fst r, true, snd r)).
Proof.
  intros Hstage Hreq. unfold add_experience. rewrite Hstage.
  change (Z.to_nat (9 - 8)) with 1%nat.
  cbn [add_experience_loop stage].
  change (8 <? 9) with true. cbv iota.
  unfold get_current_stage_exp_requirement.
  cbn [realm stage experience].
  apply Z.geb_le in Hreq. rewrite Hreq.
  destruct (advance_stage _ _ _) as [p1 messages1]. reflexivity.
Qed.

(** Stage 9 is terminal for [add_experience]: no grant moves a player
    who is there. *)
Lemma add_experience_at_stage_9 p amount :
  stage p = 9 ->
  stage (fst (fst (add_experience p amount))) = 9
  /\ snd (fst (add_experience p amount)) = false.
Proof.
  intros Hstage. unfold add_experience. rewrite Hstage.
  split; reflexivity.
Qed.

Lemma requirement_8_lt_9 T :
  get_stage_exp_requirement T 8 < get_stage_exp_requirement T 9.
Proof. destruct T; vm_compute; reflexivity. Qed.

End Progression.

Section ProgressionClaims.

Import RealmStageManager EnhancedPlayer.

(** C7, as stated, fails at s = 9: [get_stage_exp_requirement] answers
    0 for stage 10, which is not above the requirement of stage 9. *)
Lemma requirement_not_increasing_at_stage_9 :
  get_stage_exp_requirement BODY_TEMPERING 9 = 214
  /\ get_stage_exp_requirement BODY_TEMPERING (9 + 1) = 0
  /\ ~ (get_stage_exp_requirement BODY_TEMPERING (9 + 1)
        > get_stage_exp_requirement BODY_TEMPERING 9).
Proof.
  repeat split. vm_compute. discriminate.
Qed.

(** C7, amended: for every realm T of the table and every stage s in
    [1,8], requirement(T, s+1) > requirement(T, s); the requirement of
    stage 10 is 0, so the chain stops at stage 9. *)
Theorem requirement_strictly_increasing (T : CultivationRealm) (s : Z) :
  1 <= s <= 8 ->
  get_stage_exp_requirement T (s + 1) > get_stage_exp_requirement T s.
Proof.
  intros Hs.
  assert (s = 1 \/ s = 2 \/ s = 3 \/ s = 4 \/ s = 5 \/ s = 6 \/ s = 7 \/ s = 8)
    as Hcases by lia.
  destruct T;
    repeat (destruct Hcases as [-> | Hcases]; [vm_compute; reflexivity |]);
    subst s; vm_compute; reflexivity.
Qed.

Lemma requirement_strictly_increasing_witness :
  get_stage_exp_requirement VOID_REFINEMENT (3 + 1)
  > get_stage_exp_requirement VOID_REFINEMENT 3.
Proof.
  apply (requirement_strictly_increasing VOID_REFINEMENT 3). lia.
Defined.

(** C3, as stated, fails: a Body Tempering player at stage 8 with no
    accumulated experience who receives requirement(T,9) = 214 reaches
    stage 9 with 35 experience left over, not zero, because leaving
    stage 8 costs requirement(T,8) = 179. *)
Lemma add_experience_stage_8_leftover :
  let p := mkPlayer BODY_TEMPERING 8 0 (PyInt 10) [] SpiritStoneManager.init 0 in
  let r := add_experience p (get_stage_exp_requirement BODY_TEMPERING 9) in
  stage (fst (fst r)) = 9
  /\ experience (fst (fst r)) = 35
  /\ experience (fst (fst r)) <> 0.
Proof.
  vm_compute. repeat split. discriminate.
Qed.

(** C3, amended: for every realm T, a player at stage 8 of T with zero
    accumulated experience who receives exactly requirement(T,9)
    advances exactly one stage, to stage 9 of T, and keeps
    requirement(T,9) - requirement(T,8) > 0 as leftover experience,
    the threshold for leaving stage 8 being requirement(T,8); the
    leftover is zero when the grant is exactly requirement(T,8).
    Either way stage 9 is terminal: no later grant changes the
    stage. *)
Theorem add_experience_from_stage_8_to_9 (p : Player) :
  stage p = 8 ->
  experience p = 0 ->
  let T := realm p in
  let r9 := add_experience p (get_stage_exp_requirement T 9) in
  let r8 := add_experience p (get_stage_exp_requirement T 8) in
  (realm (fst (fst r9)) = T
   /\ stage (fst (fst r9)) = 9
   /\ experience (fst (fst r9))
      = get_stage_exp_requirement T 9 - get_stage_exp_requirement T 8
   /\ 0 < experience (fst (fst r9))
   /\ snd (fst r9) = true
   /\ count_advances (snd r9) = 1%nat
   /\ forall amount, stage (fst (fst (add_experience (fst (fst r9)) amount))) = 9)
  /\ (realm (fst (fst r8)) = T
      /\ stage (fst (fst r8)) = 9
      /\ experience (fst (fst r8)) = 0
      /\ snd (fst r8) = true
      /\ count_advances (snd r8) = 1%nat
      /\ forall amount, stage (fst (fst (add_experience (fst (fst r8)) amount))) = 9).
Proof.
  intros Hstage Hexp T r9 r8. subst T r9 r8.
  pose proof (requirement_8_lt_9 (realm p)) as Hlt.
  rewrite !add_experience_from_stage_8 by (try exact Hstage; lia).
  cbv zeta. cbn [fst snd].
  split.
  - pose proof (advance_stage_spec
                  (mkPlayer (realm p) (stage p)
                            (experience p + get_stage_exp_requirement (realm p) 9)
                            (foundation_quality p) (ongoing_effects p)
                            (spirit_stones p) (effects_cured p))
                  (get_stage_exp_requirement (realm p) 8) []) as Hadv.
    cbv zeta in Hadv. cbn [realm stage experience] in Hadv.
    destruct Hadv as (Hr & Hs & He & _ & _ & _ & Hc).
    rewrite Hr, Hs, He, Hc, Hstage, Hexp.
    repeat split; lia.
  - pose proof (advance_stage_spec
                  (mkPlayer (realm p) (stage p)
                            (experience p + get_stage_exp_requirement (realm p) 8)
                            (foundation_quality p) (ongoing_effects p)
                            (spirit_stones p) (effects_cured p))
                  (get_stage_exp_requirement (realm p) 8) []) as Hadv.
    cbv zeta in Hadv. cbn [realm stage experience] in Hadv.
    destruct Hadv as (Hr & Hs & He & _ & _ & _ & Hc).
    rewrite Hr, Hs, He, Hc, Hstage, Hexp.
    repeat split; lia.
Qed.

Lemma add_experience_from_stage_8_to_9_witness :
  let p := mkPlayer QI_GATHERING 8 0 (PyInt 45) [] SpiritStoneManager.init 0 in
  stage (fst (fst (add_experience p (get_stage_exp_requirement QI_GATHERING 9)))) = 9
  /\ experience (fst (fst (add_experience p (get_stage_exp_requirement QI_GATHERING 9))))
     = get_stage_exp_requirement QI_GATHERING 9 - get_stage_exp_requirement QI_GATHERING 8.
Proof.
  intros p.
  destruct (add_experience_from_stage_8_to_9 p eq_refl eq_refl)
    as [(_ & Hs & He & _) _].
  split; [exact Hs | exact He].
Defined.

End ProgressionClaims.

(** ** Breakthrough rate and encounter chance *)

Section Rates.

Import RealmStageManager EncounterManager.

Lemma flt_fle x y : flt x y = true -> fle x y = true.
Proof.
  unfold flt, fle, SFltb, SFleb.
  destruct (SFcompare x y) as [[| |] |]; congruence.
Qed.

(** The final clamp [min(0.95, max(0.05, x))] lands in [0.05, 0.95]
    whatever [x] is, a NaN or an infinity included. *)
Lemma final_clamp_range x :
  fle (dec 5 2) (py_min (dec 95 2) (py_max (dec 5 2) x)) = true
  /\ fle (py_min (dec 95 2) (py_max (dec 5 2) x)) (dec 95 2) = true.
Proof.
  unfold py_max.
  destruct (flt (dec 5 2) x) eqn:Hlo.
  - unfold py_min.
    destruct (flt x (dec 95 2)) eqn:Hhi.
    + split; apply flt_fle; assumption.
    + split; vm_compute; reflexivity.
  - split; vm_compute; reflexivity.
Qed.

(** The sum of the bonus factors is added left to right, after the
    two inner clamps. *)
Lemma breakthrough_rate_unfold realm foundation_quality bonus_factors :
  calculate_breakthrough_success_rate realm foundation_quality bonus_factors
  = spec_clamp (dec 5 2) (dec 95 2)
      (fold_left (fun rate factor => fadd rate (snd factor))
         (match bonus_factors with Some factors => factors | None => [] end)
         (py_max (dec 5 2)
            (fsub
               (py_min (dec 95 2)
                  (fadd (dec 3 1)
                     (fmul
                        (fsub
                           (fdiv (to_float foundation_quality)
                              (of_Z (foundation_requirement (realms realm))))
                           (dec 10 1))
                        (dec 4 1))))
               (fmul (fsub (breakthrough_difficulty (realms realm)) (dec 10 1))
                  (dec 1 1))))).
Proof.
  unfold calculate_breakthrough_success_rate, spec_clamp.
  destruct bonus_factors; reflexivity.
Qed.

End Rates.

Section RateClaims.

Import RealmStageManager EncounterManager.

(** C5, as stated, fails: the code is not the single clamp of the
    formula.  At the peak of Mahayana with foundation 1400 and the
    stability bonus 0.02, the inner floor lifts the rate to 0.05
    before the bonus is added, so the code returns 0.07 where the
    formula gives 0.05. *)
Lemma breakthrough_rate_differs_from_formula :
  calculate_breakthrough_success_rate MAHAYANA mahayana_foundation (Some stability_bonus)
  = dec 7 2
  /\ spec_breakthrough_success_rate MAHAYANA mahayana_foundation stability_bonus
     = dec 5 2
  /\ calculate_breakthrough_success_rate MAHAYANA mahayana_foundation
       (Some stability_bonus)
     <> spec_breakthrough_success_rate MAHAYANA mahayana_foundation stability_bonus.
Proof.
  vm_compute. repeat split. discriminate.
Qed.

(** C5, amended: for every realm, every foundation quality and every
    bonus-factor dictionary, [calculate_breakthrough_success_rate]
    returns
    [clamp(0.05, 0.95, max(0.05, min(0.95, 0.3 + (foundation/requirement - 1.0) * 0.4)
                                 - (difficulty - 1.0) * 0.1) + sum of bonus_factors)],
    the base rate being capped at 0.95 and the rate after the
    difficulty penalty floored at 0.05 before the bonus factors are
    added; the returned rate always lies within [0.05, 0.95], as with
    a single bonus factor of 10.0, which gives 0.95. *)
Theorem breakthrough_rate_clamped (realm : CultivationRealm)
        (foundation_quality : number) (bonus_factors : option (list (string * float))) :
  let rate := calculate_breakthrough_success_rate realm foundation_quality bonus_factors in
  fle (dec 5 2) rate = true
  /\ fle rate (dec 95 2) = true
  /\ rate
     = spec_clamp (dec 5 2) (dec 95 2)
         (fold_left (fun r factor => fadd r (snd factor))
            (match bonus_factors with Some factors => factors | None => [] end)
            (py_max (dec 5 2)
               (fsub
                  (py_min (dec 95 2)
                     (fadd (dec 3 1)
                        (fmul
                           (fsub
                              (fdiv (to_float foundation_quality)
                                 (of_Z (foundation_requirement (realms realm))))
                              (dec 10 1))
                           (dec 4 1))))
                  (fmul (fsub (breakthrough_difficulty (realms realm)) (dec 10 1))
                     (dec 1 1)))))
  /\ calculate_breakthrough_success_rate MAHAYANA mahayana_foundation
       (Some [("pill"%string, of_Z 10)])
     = dec 95 2.
Proof.
  cbv zeta. split; [| split; [| split]].
  - rewrite breakthrough_rate_unfold. apply final_clamp_range.
  - rewrite breakthrough_rate_unfold. apply final_clamp_range.
  - apply breakthrough_rate_unfold.
  - vm_compute. reflexivity.
Qed.

(** The drought bonus is off below 15 quiet sessions. *)
Lemma encounter_chance_without_drought self current_session :
  sessions_since_encounter self < 15 ->
  _calculate_encounter_chance self current_session
  = py_min (base_chance self) (dec 4 1).
Proof.
  intros Hquiet. unfold _calculate_encounter_chance.
  assert ((sessions_since_encounter self >=? 15) = false) as -> by lia.
  reflexivity.
Qed.

(** From 15 quiet sessions on it is 0.02 per session beyond 15, capped
    at 0.3, and the total is capped at 0.4. *)
Lemma encounter_chance_with_drought self current_session :
  15 <= sessions_since_encounter self ->
  _calculate_encounter_chance self current_session
  = py_min
      (fadd (base_chance self)
         (py_min (dec 3 1)
            (fmul (of_Z (sessions_since_encounter self - 15)) (dec 2 2))))
      (dec 4 1).
Proof.
  intros Hquiet. unfold _calculate_encounter_chance.
  assert ((sessions_since_encounter self >=? 15) = true) as -> by lia.
  reflexivity.
Qed.

(** C8: with 20 sessions since the last encounter and the base rate
    0.06, the encounter chance is
    [min(0.06 + min(0.3, (20 - 15) * 0.02), 0.4)], which is 0.16. *)
Theorem encounter_chance_after_20_quiet_sessions
        (self : SmartEncounterManager) (current_session : Z) :
  sessions_since_encounter self = 20 ->
  base_chance self = dec 6 2 ->
  _calculate_encounter_chance self current_session
  = py_min (fadd (dec 6 2) (py_min (dec 3 1) (fmul (of_Z (20 - 15)) (dec 2 2))))
           (dec 4 1)
  /\ _calculate_encounter_chance self current_session = dec 16 2.
Proof.
  intros Hquiet Hbase.
  rewrite encounter_chance_with_drought by lia.
  rewrite Hquiet, Hbase. split; [reflexivity |].
  vm_compute. reflexivity.
Qed.

Lemma encounter_chance_after_20_quiet_sessions_witness :
  _calculate_encounter_chance drought_manager 0 = dec 16 2.
Proof.
  exact (proj2 (encounter_chance_after_20_quiet_sessions drought_manager 0
                  eq_refl eq_refl)).
Defined.

End RateClaims.

(** ** Status effects *)

Section Effects.

Import EnhancedPlayer.

Lemma store_set_same heap r effect : store_set heap r effect r = effect.
Proof. unfold store_set. rewrite Nat.eqb_refl. reflexivity. Qed.

Lemma store_set_other heap r r' effect :
  r' <> r -> store_set heap r effect r' = heap r'.
Proof.
  intros Hne. unfold store_set.
  destruct (Nat.eqb_spec r' r) as [Heq | _]; [contradiction | reflexivity].
Qed.

Lemma filter_stays_active_ext (heap heap' : Store) (l : list obj_id) :
  (forall r, In r l -> heap' r = heap r) ->
  filter (fun r => stays_active (heap' r)) l = filter (fun r => stays_active (heap r)) l.
Proof.
  intros Hagree. apply filter_ext_in. intros r Hin. rewrite (Hagree r Hin). reflexivity.
Qed.

(** The tick on a list without a repeated object: the list kept is the
    input filtered by [stays_active], every listed object holds its
    [ticked] contents, every other object is as before. *)
Lemma cleanup_loop_spec (effects : list obj_id) :
  forall heap active_effects,
    NoDup effects ->
    snd (cleanup_loop heap effects active_effects)
    = active_effects ++ filter (fun r => stays_active (heap r)) effects
    /\ (forall r, In r effects ->
          fst (cleanup_loop heap effects active_effects) r = ticked (heap r))
    /\ (forall r, ~ In r effects ->
          fst (cleanup_loop heap effects active_effects) r = heap r).
Proof.
  induction effects as [| r rest IH]; intros heap active_effects Hnd.
  - simpl. rewrite app_nil_r. split; [reflexivity | split].
    + intros r [].
    + reflexivity.
  - inversion Hnd as [| ? ? Hnotin Hnd']; subst.
    cbn [cleanup_loop filter].
    unfold stays_active at 1.
    destruct (OngoingEffect.remaining_duration (heap r)) as [remaining |] eqn:Hdur.
    + destruct (remaining >? 0) eqn:Hpos.
      * set (heap1 := store_set heap r
                        (OngoingEffect.set_remaining_duration (heap r) (remaining - 1))).
        assert (Hrest : forall r', In r' rest -> heap1 r' = heap r').
        { intros r' Hin. apply store_set_other. intros ->. exact (Hnotin Hin). }
        destruct (IH heap1 (active_effects ++ [r]) Hnd') as (Hlist & Hin & Hout).
        split; [| split].
        -- rewrite Hlist, (filter_stays_active_ext heap heap1 rest Hrest).
           rewrite <- app_assoc. reflexivity.
        -- intros r' [<- | Hr'].
           ++ rewrite (Hout r Hnotin). unfold heap1. rewrite store_set_same.
              unfold ticked. rewrite Hdur, Hpos. reflexivity.
           ++ rewrite (Hin r' Hr'), (Hrest r' Hr'). reflexivity.
        -- intros r' Hr'. rewrite Hout by (intros H; apply Hr'; right; exact H).
           apply store_set_other. intros ->. apply Hr'. left. reflexivity.
      * destruct (IH heap active_effects Hnd') as (Hlist & Hin & Hout).
        split; [exact Hlist | split].
        -- intros r' [<- | Hr'].
           ++ rewrite (Hout r Hnotin). unfold ticked. rewrite Hdur, Hpos. reflexivity.
           ++ exact (Hin r' Hr').
        -- intros r' Hr'. apply Hout. intros H. apply Hr'. right. exact H.
    + destruct (IH heap (active_effects ++ [r]) Hnd') as (Hlist & Hin & Hout).
      split; [| split].
      * rewrite Hlist, <- app_assoc. reflexivity.
      * intros r' [<- | Hr'].
        -- rewrite (Hout r Hnotin). unfold ticked. rewrite Hdur. reflexivity.
        -- exact (Hin r' Hr').
      * intros r' Hr'. apply Hout. intros H. apply Hr'. right. exact H.
Qed.

(** Why the list must not repeat an object: the decrement is written
    into the object, so a template listed twice loses two sessions in
    one tick. *)
Example cleanup_shared_object_ticked_twice :
  let r := _cleanup_expired_effects (store_of pill_poisoning qi_stagnation)
             (new_player [0%nat; 0%nat] SpiritStoneManager.init) in
  ongoing_effects (snd r) = [0%nat; 0%nat]
  /\ OngoingEffect.remaining_duration (fst r 0%nat) = Some 3.
Proof. vm_compute. split; reflexivity. Qed.

(** Every cost of the cure catalog is a dictionary: no grade twice. *)
Lemma dict_get_In {V : Type} (items : list (string * V)) key v :
  EffectResolutionSystem.dict_get items key = Some v -> exists k, In (k, v) items.
Proof.
  induction items as [| [k v'] rest IH]; simpl; [discriminate |].
  destruct (String.eqb k key).
  - intros [= <-]. exists k. left. reflexivity.
  - intros Hget. destruct (IH Hget) as [k' Hin]. exists k'. right. exact Hin.
Qed.

Lemma cure_costs_wf effect_name cost :
  EffectResolutionSystem.get_cure_cost effect_name = Some cost -> cost_wf cost.
Proof.
  intros Hget. apply dict_get_In in Hget as [k Hin].
  assert (Hall : Forall (fun item => cost_wf (snd item)) EffectResolutionSystem.cure_costs).
  { unfold EffectResolutionSystem.cure_costs, cost_wf.
    repeat constructor; simpl; intuition discriminate. }
  rewrite Forall_forall in Hall. exact (Hall (k, cost) Hin).
Qed.

End Effects.

Section EffectClaims.

Import EnhancedPlayer.

(** C4: the modifiers can take a positive experience down to zero.
    With "Void Taint" (0.40) and "Heart Demon" (0.50) active, a base
    experience of 3 becomes [int(3 * 0.4) = 1] and then
    [int(1 * 0.5) = 0]: only the [exp_penalty] branch has the floor
    [max(1, ...)], the multiplier branches have none. *)
Theorem apply_ongoing_effects_reaches_zero :
  _apply_ongoing_effects (store_of void_taint heart_demon)
    (new_player [0%nat; 1%nat] SpiritStoneManager.init) 3
  = Some 0.
Proof. vm_compute. reflexivity. Qed.

(** C6, as stated, fails: an effect whose duration reaches zero in a
    tick stays active.  After one tick "Qi Deviation" with one session
    left is still in the list, with duration 0. *)
Lemma cleanup_keeps_effect_at_zero :
  let r := _cleanup_expired_effects (store_of qi_deviation_last_session qi_stagnation)
             (new_player [0%nat] SpiritStoneManager.init) in
  ongoing_effects (snd r) = [0%nat]
  /\ OngoingEffect.remaining_duration (fst r 0%nat) = Some 0.
Proof. vm_compute. split; reflexivity. Qed.

(** C6, amended: for every list of active effects in which no effect
    object occurs twice, one duration tick keeps the effects that are
    permanent or have a positive remaining duration, in their order,
    and drops the others; a permanent effect is left untouched; a
    positive finite duration is decremented by exactly one and the
    effect is kept, also when its duration thereby reaches zero; an
    effect whose duration was already zero (or less) before the tick
    is removed.  So an effect that reaches zero is removed by the
    next tick, and every finite duration that is active after a tick
    is at least 0. *)
Theorem cleanup_expired_effects_tick (heap : Store) (p : Player) :
  NoDup (ongoing_effects p) ->
  let r := _cleanup_expired_effects heap p in
  ongoing_effects (snd r)
  = filter (fun o => stays_active (heap o)) (ongoing_effects p)
  /\ (forall o, In o (ongoing_effects p) ->
        OngoingEffect.remaining_duration (heap o) = None ->
        In o (ongoing_effects (snd r)) /\ fst r o = heap o)
  /\ (forall o d, In o (ongoing_effects p) ->
        OngoingEffect.remaining_duration (heap o) = Some d -> 0 < d ->
        In o (ongoing_effects (snd r))
        /\ fst r o = OngoingEffect.set_remaining_duration (heap o) (d - 1))
  /\ (forall o d, In o (ongoing_effects p) ->
        OngoingEffect.remaining_duration (heap o) = Some d -> d <= 0 ->
        ~ In o (ongoing_effects (snd r)))
  /\ (forall o d, In o (ongoing_effects (snd r)) ->
        OngoingEffect.remaining_duration (fst r o) = Some d -> 0 <= d)
  /\ (forall o, ~ In o (ongoing_effects p) -> fst r o = heap o).
Proof.
  intros Hnd. unfold _cleanup_expired_effects.
  destruct (cleanup_loop_spec (ongoing_effects p) heap [] Hnd) as (Hlist & Hin & Hout).
  destruct (cleanup_loop heap (ongoing_effects p) []) as [heap' active_effects].
  cbn [fst snd ongoing_effects] in *. subst active_effects.
  split; [reflexivity |].
  split; [| split; [| split; [| split]]].
  - intros o Ho Hdur. split.
    + apply filter_In. split; [exact Ho |]. unfold stays_active. rewrite Hdur. reflexivity.
    + rewrite (Hin o Ho). unfold ticked. rewrite Hdur. reflexivity.
  - intros o d Ho Hdur Hd.
    assert ((d >? 0) = true) as Hpos by lia. split.
    + apply filter_In. split; [exact Ho |]. unfold stays_active. rewrite Hdur. exact Hpos.
    + rewrite (Hin o Ho). unfold ticked. rewrite Hdur, Hpos. reflexivity.
  - intros o d Ho Hdur Hd Hkept.
    apply filter_In in Hkept as [_ Hactive].
    unfold stays_active in Hactive. rewrite Hdur in Hactive. lia.
  - intros o d Hkept Hdur.
    apply filter_In in Hkept as [Ho Hactive].
    rewrite (Hin o Ho) in Hdur. unfold ticked, stays_active in *.
    destruct (OngoingEffect.remaining_duration (heap o)) as [d0 |] eqn:Hd0.
    + rewrite Hactive in Hdur. simpl in Hdur. injection Hdur as <-. lia.
    + rewrite Hd0 in Hdur. discriminate.
  - exact Hout.
Qed.

Lemma cleanup_expired_effects_tick_witness :
  let r := _cleanup_expired_effects (store_of qi_deviation_last_session qi_stagnation)
             (new_player [0%nat; 1%nat] SpiritStoneManager.init) in
  ongoing_effects (snd r) = [0%nat; 1%nat]
  /\ fst r 1%nat = qi_stagnation.
Proof.
  intros r.
  assert (Hnd : NoDup (ongoing_effects (new_player [0%nat; 1%nat] SpiritStoneManager.init))).
  { simpl. repeat constructor; simpl; intuition discriminate. }
  destruct (cleanup_expired_effects_tick
              (store_of qi_deviation_last_session qi_stagnation)
              (new_player [0%nat; 1%nat] SpiritStoneManager.init) Hnd)
    as (Hlist & Hperm & _).
  split; [exact Hlist |].
  apply Hperm; [right; left; reflexivity | reflexivity].
Defined.

(** C10: whenever [cure_effect] reports failure, the player is left as
    before: the same active-effect list, the same spirit-stone
    inventory and the same cured count.  (The effect objects are only
    read.)  The failure after a positive [can_cure_effect] never
    happens, since a payment that was found affordable succeeds. *)
Theorem cure_effect_failure_changes_nothing
        (heap : Store) (p : Player) (effect_name : string) :
  fst (fst (cure_effect heap p effect_name)) = false ->
  snd (cure_effect heap p effect_name) = p
  /\ ongoing_effects (snd (cure_effect heap p effect_name)) = ongoing_effects p
  /\ spirit_stones (snd (cure_effect heap p effect_name)) = spirit_stones p
  /\ effects_cured (snd (cure_effect heap p effect_name)) = effects_cured p.
Proof.
  intros Hfail.
  assert (Hsame : snd (cure_effect heap p effect_name) = p).
  { revert Hfail. unfold cure_effect.
    destruct (find_negative heap (ongoing_effects p) effect_name 0)
      as [[effect_to_cure effect_index] |]; [| reflexivity].
    unfold EffectResolutionSystem.can_cure_effect, EffectResolutionSystem.cure_effect.
    destruct (EffectResolutionSystem.get_cure_cost effect_name)
      as [[| item cost] |] eqn:Hcost; try reflexivity.
    destruct (SpiritStoneManager.can_afford_cost (spirit_stones p) (item :: cost))
      eqn:Hafford; [| reflexivity].
    pose proof (pay_cost_succeeds (spirit_stones p) (item :: cost)
                  (cure_costs_wf _ _ Hcost) Hafford) as Hpaid.
    destruct (SpiritStoneManager.pay_cost (spirit_stones p) (item :: cost))
      as [paid inv'].
    simpl in Hpaid. subst paid. simpl. discriminate. }
  rewrite Hsame. repeat split.
Qed.

Lemma cure_effect_failure_changes_nothing_witness :
  snd (cure_effect (store_of qi_stagnation heart_demon)
         (new_player [0%nat; 1%nat] (mkInventory 5 1 0 0 0)) "Qi Stagnation")
  = new_player [0%nat; 1%nat] (mkInventory 5 1 0 0 0).
Proof.
  exact (proj1 (cure_effect_failure_changes_nothing
                  (store_of qi_stagnation heart_demon)
                  (new_player [0%nat; 1%nat] (mkInventory 5 1 0 0 0))
                  "Qi Stagnation" eq_refl)).
Defined.

End EffectClaims.

(** ** More on the ledger *)

Section LedgerValue.

Import SpiritStoneManager.

Lemma total_value_formula inv :
  get_total_value_in_low_grade inv
  = low inv + mid inv * 10 + high inv * 100 + peak inv * 1000 + divine inv * 10000.
Proof. unfold get_total_value_in_low_grade. simpl. lia. Qed.

Lemma total_value_inv_set inv grade v :
  get_total_value_in_low_grade (inv_set inv grade v)
  = get_total_value_in_low_grade inv + (v - inv_get inv grade) * EXCHANGE_RATES grade.
Proof.
  rewrite !total_value_formula. destruct inv, grade; simpl; lia.
Qed.

Lemma total_value_add_stones inv grade amount :
  get_total_value_in_low_grade (add_stones inv grade amount)
  = get_total_value_in_low_grade inv + amount * EXCHANGE_RATES grade.
Proof. unfold add_stones. rewrite total_value_inv_set. lia. Qed.

Lemma inv_set_get_same inv grade : inv_set inv grade (inv_get inv grade) = inv.
Proof. destruct inv, grade; reflexivity. Qed.

Lemma inv_set_set_same inv grade v w :
  inv_set (inv_set inv grade v) grade w = inv_set inv grade w.
Proof. destruct inv, grade; reflexivity. Qed.

Lemma inv_set_comm inv grade grade' v w :
  grade <> grade' ->
  inv_set (inv_set inv grade v) grade' w = inv_set (inv_set inv grade' w) grade v.
Proof. destruct inv, grade, grade'; intros Hne; try reflexivity; congruence. Qed.

Lemma total_cost_acc (cost : Cost) :
  forall acc,
    fold_left (fun total item => total + snd item * EXCHANGE_RATES (fst item)) cost acc
    = acc + total_cost cost.
Proof.
  unfold total_cost.
  induction cost as [| item rest IH]; intros acc; simpl; [lia |].
  rewrite (IH (acc + snd item * EXCHANGE_RATES (fst item))).
  rewrite (IH (snd item * EXCHANGE_RATES (fst item))). lia.
Qed.

Lemma total_cost_cons grade amount (rest : Cost) :
  total_cost ((grade, amount) :: rest)
  = amount * EXCHANGE_RATES grade + total_cost rest.
Proof. unfold total_cost at 1. simpl. rewrite total_cost_acc. lia. Qed.

(** [can_afford_cost] by cases: every listed grade suffices, or the
    conversion check decides. *)
Lemma can_afford_loop_cases inv cost items :
  can_afford_loop inv cost items
  = if forallb (fun item => negb (inv_get inv (fst item) <? snd item)) items
    then true
    else _can_afford_with_conversion inv cost.
Proof.
  induction items as [| [grade amount] rest IH]; simpl; [reflexivity |].
  destruct (inv_get inv grade <? amount); simpl; [reflexivity | exact IH].
Qed.

Lemma exact_loop_value items :
  forall temp temp',
    exact_loop temp items = Some temp' ->
    get_total_value_in_low_grade temp'
    = get_total_value_in_low_grade temp - total_cost items.
Proof.
  induction items as [| [grade amount] rest IH]; simpl; intros temp temp' Hex.
  - injection Hex as <-. unfold total_cost. simpl. lia.
  - destruct (inv_get temp grade >=? amount); [| discriminate].
    rewrite (IH _ _ Hex), total_value_inv_set, total_cost_cons. lia.
Qed.

(** When every grade of the cost is in stock the exact loop succeeds,
    lowers each listed grade by its amount and touches nothing else. *)
Lemma exact_loop_sufficient inv items :
  forall temp,
    NoDup (map fst items) ->
    (forall grade, In grade (map fst items) -> inv_get temp grade = inv_get inv grade) ->
    (forall grade amount, In (grade, amount) items -> amount <= inv_get inv grade) ->
    exists temp',
      exact_loop temp items = Some temp'
      /\ (forall grade amount, In (grade, amount) items ->
            inv_get temp' grade = inv_get inv grade - amount)
      /\ (forall grade, ~ In grade (map fst items) ->
            inv_get temp' grade = inv_get temp grade).
Proof.
  induction items as [| [grade amount] rest IH]; simpl; intros temp Hnd Hagree Hsuff.
  - exists temp. split; [reflexivity | split]; [intros ? ? [] | reflexivity].
  - inversion Hnd as [| ? ? Hnotin Hnd']; subst.
    pose proof (Hsuff grade amount (or_introl eq_refl)) as Hga.
    pose proof (Hagree grade (or_introl eq_refl)) as Hg.
    assert ((inv_get temp grade >=? amount) = true) as -> by lia.
    destruct (IH (inv_set temp grade (inv_get temp grade - amount)) Hnd')
      as (temp' & Hex & Hin & Hout).
    + intros grade' Hin'. rewrite inv_get_set_other.
      * apply Hagree. right. exact Hin'.
      * intros ->. exact (Hnotin Hin').
    + intros grade' amount' Hin'. apply Hsuff. right. exact Hin'.
    + exists temp'. split; [exact Hex | split].
      * intros grade' amount' [Heq | Hin'].
        -- injection Heq as <- <-.
           rewrite (Hout grade Hnotin), inv_get_set_same. lia.
        -- exact (Hin grade' amount' Hin').
      * intros grade' Hnot.
        rewrite Hout by (intros H; apply Hnot; right; exact H).
        apply inv_get_set_other. intros ->. apply Hnot. left. reflexivity.
Qed.

(** The conversion loop keeps [total value - remaining cost]: every
    stone it takes lowers both by the stone's value. *)
Lemma conversion_loop_value grades :
  forall inv remaining,
    get_total_value_in_low_grade (fst (conversion_loop grades inv remaining))
    - snd (conversion_loop grades inv remaining)
    = get_total_value_in_low_grade inv - remaining.
Proof.
  induction grades as [| grade rest IH]; simpl; intros inv remaining; [reflexivity |].
  destruct (remaining <=? 0); simpl; [reflexivity |].
  destruct ((inv_get inv grade >? 0) && (remaining >? 0)); [| apply IH].
  rewrite IH, total_value_inv_set. lia.
Qed.

(** It never goes a whole Divine stone (10000) past the cost. *)
Lemma conversion_loop_overpay grades :
  forall inv remaining,
    -10000 < remaining ->
    -10000 < snd (conversion_loop grades inv remaining).
Proof.
  induction grades as [| grade rest IH]; simpl; intros inv remaining Hrem; [exact Hrem |].
  destruct (remaining <=? 0) eqn:Hdone; simpl; [exact Hrem |].
  destruct ((inv_get inv grade >? 0) && (remaining >? 0)) eqn:Huse; [| apply IH; exact Hrem].
  apply IH.
  apply andb_prop in Huse as [Havail _].
  assert (Hrate : 0 < EXCHANGE_RATES grade <= 10000) by (destruct grade; simpl; lia).
  pose proof (Z.mul_div_le (remaining + EXCHANGE_RATES grade - 1) (EXCHANGE_RATES grade)
                ltac:(lia)) as Hceil.
  pose proof (Z.le_min_r (inv_get inv grade)
                ((remaining + EXCHANGE_RATES grade - 1) / EXCHANGE_RATES grade)) as Hmin.
  nia.
Qed.

End LedgerValue.

Section LedgerExtras.

Import SpiritStoneManager.

(** X1: a deposit raises the ledger's total value by the amount times
    the grade's exchange rate. *)
Theorem add_stones_total_value (inv : Inventory) (grade : SpiritStoneGrade) (amount : Z) :
  get_total_value_in_low_grade (add_stones inv grade amount)
  = get_total_value_in_low_grade inv + amount * EXCHANGE_RATES grade.
Proof. apply total_value_add_stones. Qed.

(** X2: [remove_stones] refuses exactly when the count is short, and
    then changes nothing; when it removes, the total value drops by the
    stones' value; either way a ledger without negative counts stays
    so. *)
Theorem remove_stones_guarded (inv : Inventory) (grade : SpiritStoneGrade) (amount : Z) :
  inv_nonneg inv ->
  let r := remove_stones inv grade amount in
  inv_nonneg (snd r)
  /\ fst r = (amount <=? inv_get inv grade)
  /\ (fst r = false -> snd r = inv)
  /\ get_total_value_in_low_grade (snd r)
     = get_total_value_in_low_grade inv
       - (if fst r then amount * EXCHANGE_RATES grade else 0).
Proof.
  intros Hnn. unfold remove_stones.
  destruct (inv_get inv grade >=? amount) eqn:Hge; cbn [fst snd].
  - repeat split.
    + apply inv_set_nonneg; [exact Hnn | lia].
    + lia.
    + discriminate.
    + rewrite total_value_inv_set. lia.
  - repeat split; [exact Hnn | lia | lia].
Qed.

Lemma remove_stones_guarded_witness :
  remove_stones init HIGH 4 = (false, init)
  /\ get_total_value_in_low_grade (snd (remove_stones init MID 5))
     = get_total_value_in_low_grade init - 50.
Proof.
  assert (Hnn : inv_nonneg init) by (intros grade; destruct grade; simpl; lia).
  split.
  - destruct (remove_stones_guarded init HIGH 4 Hnn) as (_ & Hfst & Hsame & _).
    rewrite (surjective_pairing (remove_stones init HIGH 4)).
    rewrite (Hsame Hfst). rewrite Hfst. reflexivity.
  - destruct (remove_stones_guarded init MID 5 Hnn) as (_ & _ & _ & Hvalue).
    exact Hvalue.
Defined.

(** X3: removing what was just added gives back the inventory, as long
    as the count of that grade was not negative. *)
Theorem add_then_remove_stones (inv : Inventory) (grade : SpiritStoneGrade) (amount : Z) :
  0 <= inv_get inv grade ->
  remove_stones (add_stones inv grade amount) grade amount = (true, inv).
Proof.
  intros Hcount. unfold remove_stones, add_stones.
  rewrite inv_get_set_same.
  assert ((inv_get inv grade + amount >=? amount) = true) as -> by lia.
  rewrite inv_set_set_same.
  replace (inv_get inv grade + amount - amount) with (inv_get inv grade) by lia.
  rewrite inv_set_get_same. reflexivity.
Qed.

Lemma add_then_remove_stones_witness :
  remove_stones (add_stones init PEAK 7) PEAK 7 = (true, init).
Proof.
  apply (add_then_remove_stones init PEAK 7). simpl. lia.
Defined.

(** X4: a payment that fails leaves the inventory as it was: whenever
    [pay_cost] returns false the cost was not affordable and no count
    has moved. *)
Theorem pay_cost_failure_unchanged (inv : Inventory) (cost : Cost) :
  cost_wf cost ->
  fst (pay_cost inv cost) = false ->
  snd (pay_cost inv cost) = inv /\ can_afford_cost inv cost = false.
Proof.
  intros Hwf Hfail.
  destruct (can_afford_cost inv cost) eqn:Hafford.
  - rewrite (pay_cost_succeeds inv cost Hwf Hafford) in Hfail. discriminate.
  - unfold pay_cost. rewrite Hafford. split; reflexivity.
Qed.

Lemma pay_cost_failure_unchanged_witness :
  snd (pay_cost scenario_ledger [(PEAK, 1)]) = scenario_ledger.
Proof.
  assert (Hwf : cost_wf [(PEAK, 1)]).
  { unfold cost_wf. simpl. repeat constructor. simpl. intuition. }
  exact (proj1 (pay_cost_failure_unchanged scenario_ledger [(PEAK, 1)] Hwf eq_refl)).
Defined.

(** X5: when every grade of the cost is in stock, [pay_cost] pays
    exactly: each listed grade drops by its amount, the other grades
    are untouched, and the total value drops by the cost's value. *)
Theorem pay_cost_exact (inv : Inventory) (cost : Cost) :
  cost_wf cost ->
  (forall grade amount, In (grade, amount) cost -> amount <= inv_get inv grade) ->
  fst (pay_cost inv cost) = true
  /\ (forall grade amount, In (grade, amount) cost ->
        inv_get (snd (pay_cost inv cost)) grade = inv_get inv grade - amount)
  /\ (forall grade, ~ In grade (map fst cost) ->
        inv_get (snd (pay_cost inv cost)) grade = inv_get inv grade)
  /\ get_total_value_in_low_grade (snd (pay_cost inv cost))
     = get_total_value_in_low_grade inv - total_cost cost.
Proof.
  intros Hwf Hsuff.
  destruct (exact_loop_sufficient inv cost inv Hwf (fun _ _ => eq_refl) Hsuff)
    as (temp' & Hex & Hin & Hout).
  assert (Hafford : can_afford_cost inv cost = true).
  { unfold can_afford_cost. rewrite can_afford_loop_cases.
    assert (forallb (fun item => negb (inv_get inv (fst item) <? snd item)) cost = true)
      as ->; [| reflexivity].
    apply forallb_forall. intros [grade amount] Hitem. simpl.
    specialize (Hsuff grade amount Hitem). lia. }
  unfold pay_cost. rewrite Hafford, Hex. cbn [negb fst snd].
  repeat split; [exact Hin | exact Hout |].
  exact (exact_loop_value cost inv temp' Hex).
Qed.

Lemma pay_cost_exact_witness :
  pay_cost init [(LOW, 15); (MID, 2)] = (true, mkInventory 35 13 3 0 0)
  /\ get_total_value_in_low_grade (snd (pay_cost init [(LOW, 15); (MID, 2)]))
     = get_total_value_in_low_grade init - 35.
Proof.
  assert (Hwf : cost_wf [(LOW, 15); (MID, 2)]).
  { unfold cost_wf. simpl. repeat constructor; simpl; intuition discriminate. }
  assert (Hsuff : forall grade amount,
             In (grade, amount) [(LOW, 15); (MID, 2)] -> amount <= inv_get init grade).
  { intros grade amount [H | [H | []]]; injection H as <- <-; simpl; lia. }
  destruct (pay_cost_exact init [(LOW, 15); (MID, 2)] Hwf Hsuff) as (_ & _ & _ & Hvalue).
  split; [reflexivity | exact Hvalue].
Defined.

(** X6: an affordable cost of non-negative value is always covered and
    never overpaid by a whole Divine stone: the total value after
    [pay_cost] is at most [old - cost] and above [old - cost - 10000]. *)
Theorem pay_cost_value_bounds (inv : Inventory) (cost : Cost) :
  cost_wf cost ->
  can_afford_cost inv cost = true ->
  0 <= total_cost cost ->
  get_total_value_in_low_grade inv - total_cost cost - 10000
  < get_total_value_in_low_grade (snd (pay_cost inv cost))
  <= get_total_value_in_low_grade inv - total_cost cost.
Proof.
  intros Hwf Hafford Hcost.
  pose proof (pay_cost_succeeds inv cost Hwf Hafford) as Hpaid.
  unfold pay_cost in *. rewrite Hafford in *. cbn [negb] in *.
  destruct (exact_loop inv cost) as [temp' |] eqn:Hex.
  - cbn [snd]. rewrite (exact_loop_value cost inv temp' Hex). lia.
  - unfold _pay_with_conversion in *.
    pose proof (conversion_loop_value (rev all_grades) inv (total_cost cost)) as Hvalue.
    pose proof (conversion_loop_overpay (rev all_grades) inv (total_cost cost)
                  ltac:(lia)) as Hover.
    destruct (conversion_loop (rev all_grades) inv (total_cost cost)) as [inv' rem].
    cbn [fst snd] in *. apply Z.leb_le in Hpaid. lia.
Qed.

Lemma pay_cost_value_bounds_witness :
  get_total_value_in_low_grade scenario_ledger - total_cost scenario_cost - 10000
  < get_total_value_in_low_grade (snd (pay_cost scenario_ledger scenario_cost))
  <= get_total_value_in_low_grade scenario_ledger - total_cost scenario_cost.
Proof.
  apply pay_cost_value_bounds.
  - unfold cost_wf. simpl. repeat constructor. simpl. intuition.
  - reflexivity.
  - vm_compute. discriminate.
Defined.

(** X7: more stones never hurt: a cost that is affordable stays
    affordable after any deposit of a non-negative amount. *)
Theorem can_afford_cost_after_deposit (inv : Inventory) (cost : Cost)
        (grade : SpiritStoneGrade) (amount : Z) :
  0 <= amount ->
  can_afford_cost inv cost = true ->
  can_afford_cost (add_stones inv grade amount) cost = true.
Proof.
  intros Hamount. unfold can_afford_cost. rewrite !can_afford_loop_cases.
  assert (Hmono : forall g, inv_get inv g <= inv_get (add_stones inv grade amount) g).
  { intros g. unfold add_stones. destruct (grade_eq_dec g grade) as [-> | Hne].
    - rewrite inv_get_set_same. lia.
    - rewrite inv_get_set_other by exact Hne. lia. }
  destruct (forallb (fun item => negb (inv_get inv (fst item) <? snd item)) cost)
    eqn:Hall.
  - intros _.
    assert (forallb (fun item => negb (inv_get (add_stones inv grade amount) (fst item)
                                         <? snd item)) cost = true) as ->;
      [| reflexivity].
    apply forallb_forall. intros item Hitem.
    rewrite forallb_forall in Hall. specialize (Hall item Hitem).
    specialize (Hmono (fst item)). lia.
  - intros Hconv.
    destruct (forallb (fun item => negb (inv_get (add_stones inv grade amount) (fst item)
                                           <? snd item)) cost); [reflexivity |].
    unfold _can_afford_with_conversion in *.
    rewrite total_value_add_stones.
    pose proof (EXCHANGE_RATES_pos grade). nia.
Qed.

Lemma can_afford_cost_after_deposit_witness :
  can_afford_cost (add_stones scenario_ledger LOW 3) scenario_cost = true.
Proof.
  apply can_afford_cost_after_deposit; [lia | reflexivity].
Defined.

(** X8: [can_cure_effect] tells exactly whether [cure_effect] of the
    resolution system will succeed, for every effect name and every
    inventory. *)
Theorem can_cure_effect_decides_cure (inv : Inventory) (effect_name : string) :
  EffectResolutionSystem.can_cure_effect inv effect_name
  = fst (EffectResolutionSystem.cure_effect inv effect_name).
Proof.
  unfold EffectResolutionSystem.can_cure_effect, EffectResolutionSystem.cure_effect.
  destruct (EffectResolutionSystem.get_cure_cost effect_name)
    as [[| item cost] |] eqn:Hcost; try reflexivity.
  destruct (can_afford_cost inv (item :: cost)) eqn:Hafford.
  - symmetry. apply pay_cost_succeeds; [exact (cure_costs_wf _ _ Hcost) | exact Hafford].
  - unfold pay_cost. rewrite Hafford. reflexivity.
Qed.

End LedgerExtras.

Section Rewards.

Import SpiritStoneManager.

Lemma earn_spirit_stones_cons inv earned grade amount (rest : Cost) :
  earn_spirit_stones inv earned ((grade, amount) :: rest)
  = earn_spirit_stones (add_stones inv grade amount) (earned + amount) rest.
Proof. reflexivity. Qed.

Lemma earn_get_other (reward : Cost) :
  forall inv earned grade,
    ~ In grade (map fst reward) ->
    inv_get (fst (earn_spirit_stones inv earned reward)) grade = inv_get inv grade.
Proof.
  induction reward as [| [g a] rest IH]; intros inv earned grade Hnot; [reflexivity |].
  rewrite earn_spirit_stones_cons, IH.
  - unfold add_stones. apply inv_get_set_other.
    intros ->. apply Hnot. left. reflexivity.
  - intros Hin. apply Hnot. right. exact Hin.
Qed.

Lemma earn_set_comm (reward : Cost) :
  forall inv earned grade w,
    ~ In grade (map fst reward) ->
    inv_set (fst (earn_spirit_stones inv earned reward)) grade w
    = fst (earn_spirit_stones (inv_set inv grade w) earned reward).
Proof.
  induction reward as [| [g a] rest IH]; intros inv earned grade w Hnot; [reflexivity |].
  assert (Hne : grade <> g) by (intros ->; apply Hnot; left; reflexivity).
  rewrite !earn_spirit_stones_cons.
  rewrite IH by (intros Hin; apply Hnot; right; exact Hin).
  unfold add_stones.
  rewrite (inv_get_set_other inv grade g w) by congruence.
  rewrite (inv_set_comm inv g grade) by congruence.
  reflexivity.
Qed.

Lemma exact_loop_affordable inv cost items :
  forall temp temp',
    NoDup (map fst items) ->
    (forall grade, In grade (map fst items) -> inv_get temp grade = inv_get inv grade) ->
    exact_loop temp items = Some temp' ->
    can_afford_loop inv cost items = true.
Proof.
  induction items as [| [grade amount] rest IH]; simpl; intros temp temp' Hnd Hagree Hex.
  - reflexivity.
  - inversion Hnd as [| ? ? Hnotin Hnd']; subst.
    rewrite (Hagree grade (or_introl eq_refl)) in Hex.
    destruct (inv_get inv grade >=? amount) eqn:Hge; [| discriminate].
    assert ((inv_get inv grade <? amount) = false) as -> by lia.
    refine (IH _ _ Hnd' _ Hex).
    intros grade' Hin.
    rewrite inv_get_set_other; [apply Hagree; right; exact Hin |].
    intros ->. exact (Hnotin Hin).
Qed.

Lemma exact_loop_after_earn (reward : Cost) :
  forall inv earned,
    NoDup (map fst reward) ->
    (forall grade, In grade (map fst reward) -> 0 <= inv_get inv grade) ->
    exact_loop (fst (earn_spirit_stones inv earned reward)) reward = Some inv.
Proof.
  induction reward as [| [g a] rest IH]; intros inv earned Hnd Hnn; [reflexivity |].
  inversion Hnd as [| ? ? Hnotin Hnd']; subst.
  rewrite earn_spirit_stones_cons. cbn [exact_loop].
  rewrite (earn_get_other rest _ _ g Hnotin).
  unfold add_stones at 1 3. rewrite inv_get_set_same.
  pose proof (Hnn g (or_introl eq_refl)) as Hg.
  assert ((inv_get inv g + a >=? a) = true) as -> by lia.
  rewrite (earn_set_comm rest _ _ g _ Hnotin).
  unfold add_stones. rewrite inv_set_set_same.
  replace (inv_get inv g + a - a) with (inv_get inv g) by lia.
  rewrite inv_set_get_same.
  apply IH; [exact Hnd' |].
  intros grade Hin. apply Hnn. right. exact Hin.
Qed.

End Rewards.

Section RewardExtras.

Import SpiritStoneManager.

(** X9: depositing a reward raises the total value by the reward's
    value, and the earned counter by the number of stones. *)
Theorem earn_spirit_stones_value (inv : Inventory) (earned : Z) (reward : Cost) :
  get_total_value_in_low_grade (fst (earn_spirit_stones inv earned reward))
  = get_total_value_in_low_grade inv + total_cost reward
  /\ snd (earn_spirit_stones inv earned reward)
     = earned + fold_right Z.add 0 (map snd reward).
Proof.
  revert inv earned.
  induction reward as [| [g a] rest IH]; intros inv earned.
  - unfold total_cost. simpl. lia.
  - rewrite earn_spirit_stones_cons.
    destruct (IH (add_stones inv g a) (earned + a)) as [Hvalue Hcount].
    rewrite Hvalue, Hcount, total_value_add_stones, total_cost_cons. simpl. lia.
Qed.

(** X10: paying back what was just earned restores the inventory: for
    a ledger without negative counts, [pay_cost] of a reward right
    after its deposit succeeds by exact payment and leaves the
    inventory of before the deposit. *)
Theorem earn_then_pay_restores (inv : Inventory) (earned : Z) (reward : Cost) :
  cost_wf reward ->
  inv_nonneg inv ->
  pay_cost (fst (earn_spirit_stones inv earned reward)) reward = (true, inv).
Proof.
  intros Hwf Hnn.
  pose proof (exact_loop_after_earn reward inv earned Hwf (fun g _ => Hnn g)) as Hex.
  unfold pay_cost, can_afford_cost.
  rewrite (exact_loop_affordable _ reward reward _ inv Hwf (fun _ _ => eq_refl) Hex).
  rewrite Hex. reflexivity.
Qed.

Lemma earn_then_pay_restores_witness :
  pay_cost (fst (earn_spirit_stones init 0 [(LOW, 7); (HIGH, 1)])) [(LOW, 7); (HIGH, 1)]
  = (true, init).
Proof.
  apply earn_then_pay_restores.
  - unfold cost_wf. simpl. repeat constructor; simpl; intuition discriminate.
  - intros grade. destruct grade; simpl; lia.
Defined.

End RewardExtras.

(** ** More on realms and stages *)

Section RealmLemmas.

(** The conversion of an old level, realm by realm. *)
Lemma convert_old_level_cases level :
  convert_old_level_to_realm_stage level
  = Some
      (if level <=? 10 then
         (BODY_TEMPERING, Z.min 9 (Z.max 1 ((level - 0) * 9 / 10 + 1)))
       else if level <=? 20 then
         (QI_GATHERING, Z.min 9 (Z.max 1 ((level - 10) * 9 / 10 + 1)))
       else if level <=? 35 then
         (FOUNDATION_BUILDING, Z.min 9 (Z.max 1 ((level - 20) * 9 / 15 + 1)))
       else if level <=? 55 then
         (CORE_FORMATION, Z.min 9 (Z.max 1 ((level - 35) * 9 / 20 + 1)))
       else if level <=? 80 then
         (NASCENT_SOUL, Z.min 9 (Z.max 1 ((level - 55) * 9 / 25 + 1)))
       else if level <=? 110 then
         (SOUL_TRANSFORMATION, Z.min 9 (Z.max 1 ((level - 80) * 9 / 30 + 1)))
       else if level <=? 150 then
         (VOID_REFINEMENT, Z.min 9 (Z.max 1 ((level - 110) * 9 / 40 + 1)))
       else if level <=? 200 then
         (BODY_INTEGRATION, Z.min 9 (Z.max 1 ((level - 150) * 9 / 50 + 1)))
       else if level <=? 300 then
         (MAHAYANA, Z.min 9 (Z.max 1 ((level - 200) * 9 / 100 + 1)))
       else if level <=? 999 then
         (HEAVENLY_IMMORTAL, Z.min 9 (Z.max 1 ((level - 300) * 9 / 699 + 1)))
       else (HEAVENLY_IMMORTAL, 9)).
Proof.
  unfold convert_old_level_to_realm_stage, realm_mapping.
  cbn [convert_loop].
  repeat (match goal with
          | |- context [if ?l <=? ?c then _ else _] =>
              destruct (l <=? c); [reflexivity |]
          end).
  reflexivity.
Qed.

Lemma requirement_positive T s :
  1 <= s <= 9 -> 50 <= RealmStageManager.get_stage_exp_requirement T s.
Proof.
  intros Hs.
  assert (s = 1 \/ s = 2 \/ s = 3 \/ s = 4 \/ s = 5 \/ s = 6 \/ s = 7 \/ s = 8 \/ s = 9)
    as Hcases by lia.
  destruct T;
    repeat (destruct Hcases as [-> | Hcases]; [vm_compute; discriminate |]);
    subst s; vm_compute; discriminate.
Qed.

End RealmLemmas.

Section RealmExtras.

(** X11: [get_next_realm] steps one place up the realm order, and
    answers [None] for the last realm only. *)
Theorem get_next_realm_successor (current_realm : CultivationRealm) :
  match get_next_realm current_realm with
  | Some next_realm =>
      realm_rank next_realm = realm_rank current_realm + 1
      /\ current_realm <> HEAVENLY_IMMORTAL
  | None => current_realm = HEAVENLY_IMMORTAL
  end.
Proof.
  destruct current_realm; vm_compute; try reflexivity; split; congruence.
Qed.

(** X12: [convert_old_level_to_realm_stage] never raises and always
    answers with a realm and a stage between 1 and 9, for every integer
    level (negative and oversized ones included); the level cap of each
    realm lands on stage 9 of that realm, and levels above 999 on stage
    9 of the last realm. *)
Theorem convert_old_level_valid (old_level : Z) :
  (exists realm stage,
      convert_old_level_to_realm_stage old_level = Some (realm, stage)
      /\ 1 <= stage <= 9
      /\ 0 < RealmStageManager.get_stage_exp_requirement realm stage)
  /\ Forall (fun entry =>
               convert_old_level_to_realm_stage (fst entry) = Some (snd entry, 9))
            realm_mapping
  /\ (if 999 <? old_level
      then convert_old_level_to_realm_stage old_level = Some (HEAVENLY_IMMORTAL, 9)
      else True).
Proof.
  split; [| split].
  - rewrite convert_old_level_cases.
    assert (Hfinish :
              forall realm stage,
                1 <= stage <= 9 ->
                exists realm' stage',
                  Some (realm, stage) = Some (realm', stage')
                  /\ 1 <= stage' <= 9
                  /\ 0 < RealmStageManager.get_stage_exp_requirement realm' stage').
    { intros realm stage Hs. exists realm, stage.
      split; [reflexivity | split; [exact Hs |]].
      pose proof (requirement_positive realm stage Hs). lia. }
    repeat (match goal with
            | |- context [if ?l <=? ?c then _ else _] =>
                destruct (l <=? c); [apply Hfinish; lia |]
            end).
    apply Hfinish. lia.
  - unfold realm_mapping. repeat constructor.
  - destruct (999 <? old_level) eqn:Hbig; [| exact I].
    rewrite convert_old_level_cases.
    repeat (match goal with
            | |- context [if ?l <=? ?c then _ else _] =>
                destruct (l <=? c) eqn:?; [lia |]
            end).
    reflexivity.
Qed.

(** X13: the conversion is monotone: a higher old level never gives a
    lower realm, nor a lower stage within the same realm. *)
Theorem convert_old_level_monotone (level1 level2 : Z)
        (realm1 realm2 : CultivationRealm) (stage1 stage2 : Z) :
  level1 <= level2 ->
  convert_old_level_to_realm_stage level1 = Some (realm1, stage1) ->
  convert_old_level_to_realm_stage level2 = Some (realm2, stage2) ->
  realm_rank realm1 < realm_rank realm2 \/ (realm1 = realm2 /\ stage1 <= stage2).
Proof.
  intros Hle H1 H2.
  rewrite convert_old_level_cases in H1, H2.
  injection H1 as H1. injection H2 as H2.
  revert H1 H2.
  repeat (match goal with
          | |- context [if level1 <=? ?c then _ else _] =>
              destruct (level1 <=? c) eqn:?
          end);
    repeat (match goal with
            | |- context [if level2 <=? ?c then _ else _] =>
                destruct (level2 <=? c) eqn:?
            end);
    intros [= <- <-] [= <- <-];
    try (exfalso; lia);
    first
      [ right; split; [reflexivity |];
        match goal with
        | |- Z.min 9 (Z.max 1 (?a / ?w + 1)) <= Z.min 9 (Z.max 1 (?b / ?w + 1)) =>
            pose proof (Z.div_le_mono a b w ltac:(lia) ltac:(lia)); lia
        | |- _ => lia
        end
      | left; vm_compute; reflexivity ].
Qed.

Lemma convert_old_level_monotone_witness :
  realm_rank QI_GATHERING < realm_rank CORE_FORMATION
  \/ (QI_GATHERING = CORE_FORMATION /\ 5 <= 3).
Proof.
  apply (convert_old_level_monotone 15 40 QI_GATHERING CORE_FORMATION 5 3);
    [lia | reflexivity | reflexivity].
Defined.

End RealmExtras.


(** ** More on experience and stages *)

Section ExperienceLemmas.

Import RealmStageManager EnhancedPlayer.

(** What the stage loop keeps, whatever the fuel: the realm, the other
    parts of the player, and the experience account. *)
Lemma add_experience_loop_account fuel :
  forall p advanced messages,
    let r := add_experience_loop fuel p advanced messages in
    let p' := fst (fst r) in
    realm p' = realm p
    /\ stage p <= stage p' <= Z.max 9 (stage p)
    /\ experience p
       = experience p'
         + requirement_sum (realm p) (stage p) (Z.to_nat (stage p' - stage p))
    /\ ongoing_effects p' = ongoing_effects p
    /\ spirit_stones p' = spirit_stones p
    /\ effects_cured p' = effects_cured p
    /\ count_advances (snd r)
       = (count_advances messages + Z.to_nat (stage p' - stage p))%nat
    /\ snd (fst r) = advanced || (stage p <? stage p').
Proof.
  induction fuel as [| fuel IH]; intros p advanced messages; cbv zeta.
  - cbn [add_experience_loop fst snd].
    rewrite Z.sub_diag, Z.ltb_irrefl, orb_false_r. simpl.
    repeat split; lia.
  - cbn [add_experience_loop].
    destruct (stage p <? 9) eqn:Hstage;
      [| cbn [fst snd]; rewrite Z.sub_diag, Z.ltb_irrefl, orb_false_r; simpl;
         repeat split; lia].
    destruct (experience p >=? get_current_stage_exp_requirement p) eqn:Hexp;
      [| cbn [fst snd]; rewrite Z.sub_diag, Z.ltb_irrefl, orb_false_r; simpl;
         repeat split; lia].
    pose proof (advance_stage_spec p (get_current_stage_exp_requirement p) messages)
      as Hadv.
    destruct (advance_stage p (get_current_stage_exp_requirement p) messages)
      as [p1 messages1].
    cbv zeta in Hadv. cbn [fst snd] in Hadv.
    destruct Hadv as (Hr1 & Hs1 & He1 & Ho1 & Hi1 & Hc1 & Hm1).
    specialize (IH p1 true messages1). cbv zeta in IH.
    destruct (add_experience_loop fuel p1 true messages1) as [[p' advanced'] messages'].
    cbn [fst snd] in *.
    destruct IH as (Hr & Hs & He & Ho & Hi & Hc & Hm & Ha).
    assert (Hsteps : Z.to_nat (stage p' - stage p) = S (Z.to_nat (stage p' - stage p1)))
      by lia.
    rewrite Hsteps. cbn [requirement_sum].
    unfold get_current_stage_exp_requirement in He1.
    rewrite Hr1, Hs1 in He. rewrite Hr1 in Hr.
    rewrite Hs1 in Hs, Hm, Ha |- *.
    repeat split; try congruence; try lia.
    rewrite Ha. assert ((stage p <? stage p') = true) as -> by lia.
    rewrite orb_true_r. reflexivity.
Qed.

End ExperienceLemmas.

Section ExperienceExtras.

Import RealmStageManager EnhancedPlayer.

(** X14: [add_experience] keeps the books: the realm and everything
    but stage, experience and foundation are untouched, the stage only
    rises and never passes 9, and the experience held before plus the
    grant equals the experience left plus the requirements of the
    stages that were passed; the flag says whether the stage rose, and
    there is one advancement message per stage gained. *)
Theorem add_experience_accounting (p : Player) (amount : Z) :
  let r := add_experience p amount in
  let p' := fst (fst r) in
  realm p' = realm p
  /\ stage p <= stage p' <= Z.max 9 (stage p)
  /\ experience p + amount
     = experience p'
       + requirement_sum (realm p) (stage p) (Z.to_nat (stage p' - stage p))
  /\ ongoing_effects p' = ongoing_effects p
  /\ spirit_stones p' = spirit_stones p
  /\ effects_cured p' = effects_cured p
  /\ count_advances (snd r) = Z.to_nat (stage p' - stage p)
  /\ snd (fst r) = (stage p <? stage p').
Proof.
  unfold add_experience.
  exact (add_experience_loop_account (Z.to_nat (9 - stage p))
           (mkPlayer (realm p) (stage p) (experience p + amount)
                     (foundation_quality p) (ongoing_effects p)
                     (spirit_stones p) (effects_cured p))
           false []).
Qed.

(** X15: [add_experience] leaves no stage-up pending: afterwards the
    player is at stage 9 (or beyond), or holds less experience than the
    current stage requires. *)
Theorem add_experience_settled (p : Player) (amount : Z) :
  let p' := fst (fst (add_experience p amount)) in
  9 <= stage p' \/ experience p' < get_current_stage_exp_requirement p'.
Proof.
  unfold add_experience.
  apply add_experience_loop_fuel. cbn [stage]. lia.
Qed.

End ExperienceExtras.

(** ** More on status effects *)

Section EffectLemmas.

Import EnhancedPlayer.

(** Rounding keeps the sign it is given. *)
Lemma binary_round_aux_sign s m e l :
  match binary_round_aux prec emax s m e l with
  | S754_zero s' | S754_infinity s' | S754_finite s' _ _ => s' = s
  | S754_nan => True
  end.
Proof.
  unfold binary_round_aux.
  destruct (shr_fexp prec emax m e l) as [mrs' e'].
  destruct (shr_fexp prec emax _ e' loc_Exact) as [mrs'' e''].
  destruct (shr_m mrs'') as [| q | q]; [reflexivity | | exact I].
  destruct (e'' <=? emax - prec); reflexivity.
Qed.

Lemma of_Z_nonneg_sign n :
  0 <= n ->
  match of_Z n with
  | S754_zero s | S754_infinity s | S754_finite s _ _ => s = false
  | S754_nan => True
  end.
Proof.
  intros Hn. unfold of_Z, binary_normalize.
  destruct n as [| q | q]; [reflexivity | | lia].
  unfold binary_round.
  destruct (shl_align q 0 _) as [mz ez].
  apply binary_round_aux_sign.
Qed.

Lemma to_int_sign_clear m e v :
  to_int (S754_finite false m e) = Some v -> 0 <= v.
Proof.
  assert (Hmag : 0 <= (if 0 <=? e then Z.pos m * 2 ^ e else Z.pos m / 2 ^ (- e))).
  { destruct (0 <=? e) eqn:He.
    - apply Z.mul_nonneg_nonneg; [lia | apply Z.pow_nonneg; lia].
    - apply Z.div_pos; [lia | apply Z.pow_pos_nonneg; lia]. }
  unfold to_int. intros Hv. injection Hv as Hv. rewrite <- Hv. exact Hmag.
Qed.

(** [int(n * m)] is not negative when neither [n] nor [m] is. *)
Lemma to_int_fmul_nonneg n m v :
  0 <= n ->
  flt m (of_Z 0) = false ->
  to_int (fmul (of_Z n) m) = Some v ->
  0 <= v.
Proof.
  intros Hn Hm Hv.
  pose proof (of_Z_nonneg_sign n Hn) as Hx.
  destruct (of_Z n) as [sx | sx | | sx mx ex]; try subst sx.
  - destruct m as [sm | sm | | sm mm em]; simpl in Hv; try discriminate;
      injection Hv as <-; lia.
  - destruct m as [sm | sm | | sm mm em]; simpl in Hv; discriminate.
  - simpl in Hv. discriminate.
  - destruct m as [sm | sm | | sm mm em].
    + simpl in Hv. injection Hv as <-. lia.
    + simpl in Hv. discriminate.
    + simpl in Hv. discriminate.
    + assert (sm = false) as -> by (destruct sm; [discriminate Hm | reflexivity]).
      unfold fmul, SFmul in Hv. cbn [xorb] in Hv.
      pose proof (binary_round_aux_sign false (Zpos (mx * mm)) (ex + em) loc_Exact)
        as Hsign.
      destruct (binary_round_aux prec emax false (Zpos (mx * mm)) (ex + em) loc_Exact)
        as [s | s | | s mr er]; try subst s.
      * injection Hv as <-. lia.
      * discriminate.
      * discriminate.
      * exact (to_int_sign_clear _ _ _ Hv).
Qed.

(** The modifiers of a list apply in order. *)
Lemma apply_effects_loop_app heap (effects effects' : list obj_id) :
  forall modified_exp,
    apply_effects_loop heap (effects ++ effects') modified_exp
    = match apply_effects_loop heap effects modified_exp with
      | Some v => apply_effects_loop heap effects' v
      | None => None
      end.
Proof.
  induction effects as [| r rest IH]; intros modified_exp; [reflexivity |].
  cbn [app apply_effects_loop].
  destruct (String.eqb (OngoingEffect.type (heap r)) "positive");
    [| destruct (String.eqb (OngoingEffect.type (heap r)) "negative")];
    destruct (OngoingEffect.exp_multiplier (heap r)) as [multiplier |];
    try (destruct (to_int (fmul (of_Z modified_exp) multiplier)); [apply IH | reflexivity]);
    try destruct (OngoingEffect.exp_bonus (heap r));
    try destruct (OngoingEffect.exp_penalty (heap r));
    apply IH.
Qed.

Lemma apply_effects_loop_nonneg heap (effects : list obj_id) :
  forall modified_exp,
    0 <= modified_exp ->
    (forall o, In o effects -> no_negative_modifier (heap o)) ->
    match apply_effects_loop heap effects modified_exp with
    | Some v => 0 <= v
    | None => True
    end.
Proof.
  induction effects as [| r rest IH]; intros modified_exp Hexp Hall; [exact Hexp |].
  assert (Hrest : forall o, In o rest -> no_negative_modifier (heap o))
    by (intros o Ho; apply Hall; right; exact Ho).
  destruct (Hall r (or_introl eq_refl)) as [Hmult Hbonus].
  cbn [apply_effects_loop].
  destruct (String.eqb (OngoingEffect.type (heap r)) "positive");
    [| destruct (String.eqb (OngoingEffect.type (heap r)) "negative")];
    destruct (OngoingEffect.exp_multiplier (heap r)) as [multiplier |];
    try (destruct (to_int (fmul (of_Z modified_exp) multiplier)) as [v |] eqn:Hv;
         [apply IH; [exact (to_int_fmul_nonneg _ _ _ Hexp Hmult Hv) | exact Hrest]
         | exact I]);
    try destruct (OngoingEffect.exp_bonus (heap r));
    try destruct (OngoingEffect.exp_penalty (heap r));
    apply IH; try exact Hrest; lia.
Qed.

(** One tick on a player whose list repeats no object. *)
Lemma tick_once heap p :
  NoDup (ongoing_effects p) ->
  let r := _cleanup_expired_effects heap p in
  NoDup (ongoing_effects (snd r))
  /\ ongoing_effects (snd r)
     = filter (fun o => stays_active (heap o)) (ongoing_effects p)
  /\ (forall o, In o (ongoing_effects p) -> fst r o = ticked (heap o)).
Proof.
  intros Hnd. unfold _cleanup_expired_effects.
  destruct (cleanup_loop_spec (ongoing_effects p) heap [] Hnd) as (Hlist & Hin & _).
  destruct (cleanup_loop heap (ongoing_effects p) []) as [heap' active_effects].
  cbn [fst snd ongoing_effects] in *. subst active_effects.
  split; [apply NoDup_filter; exact Hnd | split; [reflexivity | exact Hin]].
Qed.

Lemma tick_sessions_active (o : obj_id) k :
  forall heap p d,
    NoDup (ongoing_effects p) ->
    In o (ongoing_effects p) ->
    OngoingEffect.remaining_duration (heap o) = Some d ->
    Z.of_nat k <= d ->
    In o (ongoing_effects (snd (tick_sessions k heap p)))
    /\ OngoingEffect.remaining_duration (fst (tick_sessions k heap p) o)
       = Some (d - Z.of_nat k).
Proof.
  induction k as [| k IH]; intros heap p d Hnd Hin Hdur Hk.
  - cbn [tick_sessions fst snd]. rewrite Z.sub_0_r. split; assumption.
  - cbn [tick_sessions].
    destruct (tick_once heap p Hnd) as (Hnd' & Hlist & Hheap).
    destruct (_cleanup_expired_effects heap p) as [heap' p'].
    cbn [fst snd] in *.
    assert (Hpos : (d >? 0) = true) by lia.
    destruct (IH heap' p' (d - 1) Hnd') as [Hin' Hdur'].
    + rewrite Hlist. apply filter_In. split; [exact Hin |].
      unfold stays_active. rewrite Hdur. exact Hpos.
    + rewrite (Hheap o Hin). unfold ticked. rewrite Hdur, Hpos. reflexivity.
    + lia.
    + split; [exact Hin' |]. rewrite Hdur'. f_equal. lia.
Qed.

Lemma tick_sessions_removed (o : obj_id) d :
  forall heap p,
    NoDup (ongoing_effects p) ->
    In o (ongoing_effects p) ->
    OngoingEffect.remaining_duration (heap o) = Some (Z.of_nat d) ->
    ~ In o (ongoing_effects (snd (tick_sessions (S d) heap p))).
Proof.
  induction d as [| d IH]; intros heap p Hnd Hin Hdur.
  - cbn [tick_sessions].
    destruct (tick_once heap p Hnd) as (_ & Hlist & _).
    destruct (_cleanup_expired_effects heap p) as [heap' p'].
    cbn [fst snd] in *. rewrite Hlist. intros Hkept.
    apply filter_In in Hkept as [_ Hactive].
    unfold stays_active in Hactive. rewrite Hdur in Hactive. discriminate.
  - change (tick_sessions (S (S d)) heap p)
      with (let '(heap', p') := _cleanup_expired_effects heap p in
            tick_sessions (S d) heap' p').
    destruct (tick_once heap p Hnd) as (Hnd' & Hlist & Hheap).
    destruct (_cleanup_expired_effects heap p) as [heap' p'].
    cbn [fst snd] in *.
    assert (Hpos : (Z.of_nat (S d) >? 0) = true) by (apply Z.gtb_lt; lia).
    apply (IH heap' p' Hnd').
    + rewrite Hlist. apply filter_In. split; [exact Hin |].
      unfold stays_active. rewrite Hdur. exact Hpos.
    + rewrite (Hheap o Hin). unfold ticked. rewrite Hdur, Hpos.
      cbn [OngoingEffect.set_remaining_duration OngoingEffect.remaining_duration].
      f_equal. lia.
Qed.

End EffectLemmas.

Section CureLemmas.

Import EnhancedPlayer.

Lemma pop_firstn_skipn {A : Type} (l : list A) :
  forall i, pop l i = firstn i l ++ skipn (S i) l.
Proof.
  induction l as [| x rest IH]; intros i; destruct i as [| i]; try reflexivity.
  cbn [pop firstn skipn app]. rewrite IH. reflexivity.
Qed.

(** The search returns the first effect with the name and the type
    ['negative'], at its index. *)
Lemma find_negative_first heap effect_name (effects : list obj_id) :
  forall i0 o i,
    find_negative heap effects effect_name i0 = Some (o, i) ->
    exists j,
      i = (i0 + j)%nat
      /\ nth_error effects j = Some o
      /\ OngoingEffect.name (heap o) = effect_name
      /\ OngoingEffect.type (heap o) = "negative"%string
      /\ forall j' o',
           (j' < j)%nat -> nth_error effects j' = Some o' ->
           ~ (OngoingEffect.name (heap o') = effect_name
              /\ OngoingEffect.type (heap o') = "negative"%string).
Proof.
  induction effects as [| r rest IH]; intros i0 o i Hfind; [discriminate |].
  cbn [find_negative] in Hfind.
  destruct (String.eqb (OngoingEffect.name (heap r)) effect_name
            && String.eqb (OngoingEffect.type (heap r)) "negative") eqn:Hmatch.
  - injection Hfind as <- <-.
    apply andb_prop in Hmatch as [Hname Htype].
    apply String.eqb_eq in Hname, Htype.
    exists O. repeat split; try assumption; [lia |].
    intros j' o' Hlt. lia.
  - destruct (IH _ _ _ Hfind) as (j & -> & Hnth & Hname & Htype & Hfirst).
    exists (S j). repeat split; try assumption; [lia |].
    intros [| j'] o' Hlt Hnth'.
    + injection Hnth' as <-. intros [Hn Ht].
      apply String.eqb_eq in Hn, Ht. rewrite Hn, Ht in Hmatch. discriminate.
    + apply (Hfirst j' o'); [lia | exact Hnth'].
Qed.

Lemma find_negative_found heap effect_name (effects : list obj_id) :
  forall i0 o,
    In o effects ->
    OngoingEffect.name (heap o) = effect_name ->
    OngoingEffect.type (heap o) = "negative"%string ->
    find_negative heap effects effect_name i0 <> None.
Proof.
  induction effects as [| r rest IH]; intros i0 o Hin Hname Htype; [destruct Hin |].
  cbn [find_negative].
  destruct (String.eqb (OngoingEffect.name (heap r)) effect_name
            && String.eqb (OngoingEffect.type (heap r)) "negative") eqn:Hmatch;
    [discriminate |].
  destruct Hin as [-> | Hin].
  - rewrite Hname, Htype, !String.eqb_refl in Hmatch. discriminate.
  - exact (IH _ o Hin Hname Htype).
Qed.

Lemma cure_after_can_cure inv effect_name :
  EffectResolutionSystem.can_cure_effect inv effect_name = true ->
  fst (EffectResolutionSystem.cure_effect inv effect_name) = true.
Proof.
  unfold EffectResolutionSystem.can_cure_effect, EffectResolutionSystem.cure_effect.
  destruct (EffectResolutionSystem.get_cure_cost effect_name)
    as [[| item cost] |] eqn:Hcost; try discriminate.
  apply pay_cost_succeeds. exact (cure_costs_wf _ _ Hcost).
Qed.

Lemma tick_sessions_permanent (o : obj_id) k :
  forall heap p,
    NoDup (ongoing_effects p) ->
    In o (ongoing_effects p) ->
    OngoingEffect.remaining_duration (heap o) = None ->
    In o (ongoing_effects (snd (tick_sessions k heap p)))
    /\ fst (tick_sessions k heap p) o = heap o.
Proof.
  induction k as [| k IH]; intros heap p Hnd Hin Hdur.
  - split; [exact Hin | reflexivity].
  - cbn [tick_sessions].
    destruct (tick_once heap p Hnd) as (Hnd' & Hlist & Hheap).
    destruct (_cleanup_expired_effects heap p) as [heap' p'].
    cbn [fst snd] in *.
    assert (Hsame : heap' o = heap o).
    { rewrite (Hheap o Hin). unfold ticked. rewrite Hdur. reflexivity. }
    destruct (IH heap' p' Hnd') as [Hin' Hheap'].
    + rewrite Hlist. apply filter_In. split; [exact Hin |].
      unfold stays_active. rewrite Hdur. reflexivity.
    + rewrite Hsame. exact Hdur.
    + split; [exact Hin' | rewrite Hheap'; exact Hsame].
Qed.

End CureLemmas.

Section EffectExtras.

Import EnhancedPlayer.

(** X16: the modifiers act in list order: applying the effects of
    [first ++ second] is applying those of [first] and then those of
    [second] to the result (and fails where either fails); with no
    active effect the base experience comes back unchanged. *)
Theorem apply_ongoing_effects_in_order (heap : Store) (p : Player)
        (first second : list obj_id) (base_exp : Z) :
  ongoing_effects p = first ++ second ->
  _apply_ongoing_effects heap p base_exp
  = match apply_effects_loop heap first base_exp with
    | Some v => apply_effects_loop heap second v
    | None => None
    end.
Proof.
  intros Hsplit. unfold _apply_ongoing_effects. rewrite Hsplit.
  apply apply_effects_loop_app.
Qed.

Lemma apply_ongoing_effects_in_order_witness :
  _apply_ongoing_effects (store_of void_taint heart_demon)
    (new_player [0%nat; 1%nat] SpiritStoneManager.init) 10
  = Some 2.
Proof.
  rewrite (apply_ongoing_effects_in_order (store_of void_taint heart_demon)
             (new_player [0%nat; 1%nat] SpiritStoneManager.init)
             [0%nat] [1%nat] 10 eq_refl).
  vm_compute. reflexivity.
Defined.

(** X17: the modifiers never make experience negative: from a base
    that is not negative, with no multiplier below zero and no negative
    flat bonus among the active effects, the result, when [int] does
    not raise, is not negative. *)
Theorem apply_ongoing_effects_not_negative (heap : Store) (p : Player) (base_exp : Z) :
  0 <= base_exp ->
  (forall o, In o (ongoing_effects p) -> no_negative_modifier (heap o)) ->
  match _apply_ongoing_effects heap p base_exp with
  | Some modified_exp => 0 <= modified_exp
  | None => True
  end.
Proof.
  intros Hbase Hall. unfold _apply_ongoing_effects.
  apply apply_effects_loop_nonneg; assumption.
Qed.

Lemma apply_ongoing_effects_not_negative_witness :
  match _apply_ongoing_effects (store_of void_taint heart_demon)
          (new_player [0%nat; 1%nat] SpiritStoneManager.init) 3 with
  | Some modified_exp => 0 <= modified_exp
  | None => True
  end.
Proof.
  apply apply_ongoing_effects_not_negative; [lia |].
  intros o [<- | [<- | []]]; split; vm_compute; trivial.
Defined.

(** X18: in a list that repeats no object, an effect with [d] sessions
    left (d >= 0) is still active after each of the next [d] ticks,
    its duration one lower each time, and is gone after tick [d + 1]. *)
Theorem finite_effect_lifetime (heap : Store) (p : Player) (o : obj_id) (d : nat) :
  NoDup (ongoing_effects p) ->
  In o (ongoing_effects p) ->
  OngoingEffect.remaining_duration (heap o) = Some (Z.of_nat d) ->
  (forall k, (k <= d)%nat ->
     In o (ongoing_effects (snd (tick_sessions k heap p)))
     /\ OngoingEffect.remaining_duration (fst (tick_sessions k heap p) o)
        = Some (Z.of_nat (d - k)))
  /\ ~ In o (ongoing_effects (snd (tick_sessions (S d) heap p))).
Proof.
  intros Hnd Hin Hdur. split.
  - intros k Hk.
    destruct (tick_sessions_active o k heap p (Z.of_nat d) Hnd Hin Hdur ltac:(lia))
      as [Hin' Hdur'].
    split; [exact Hin' |]. rewrite Hdur'. f_equal. lia.
  - exact (tick_sessions_removed o d heap p Hnd Hin Hdur).
Qed.

Lemma finite_effect_lifetime_witness :
  In 0%nat (ongoing_effects
              (snd (tick_sessions 1 (store_of qi_deviation_last_session qi_stagnation)
                      (new_player [0%nat; 1%nat] SpiritStoneManager.init))))
  /\ ~ In 0%nat (ongoing_effects
                   (snd (tick_sessions 2 (store_of qi_deviation_last_session qi_stagnation)
                           (new_player [0%nat; 1%nat] SpiritStoneManager.init)))).
Proof.
  assert (Hnd : NoDup (ongoing_effects (new_player [0%nat; 1%nat] SpiritStoneManager.init))).
  { simpl. repeat constructor; simpl; intuition discriminate. }
  destruct (finite_effect_lifetime
              (store_of qi_deviation_last_session qi_stagnation)
              (new_player [0%nat; 1%nat] SpiritStoneManager.init) 0%nat 1%nat
              Hnd (or_introl eq_refl) eq_refl) as [Hactive Hgone].
  split; [exact (proj1 (Hactive 1%nat (le_n 1))) | exact Hgone].
Defined.

(** X19: a permanent effect (duration [None]) in a list that repeats
    no object survives any number of ticks, with its contents
    untouched. *)
Theorem permanent_effect_persists (heap : Store) (p : Player) (o : obj_id) (k : nat) :
  NoDup (ongoing_effects p) ->
  In o (ongoing_effects p) ->
  OngoingEffect.remaining_duration (heap o) = None ->
  In o (ongoing_effects (snd (tick_sessions k heap p)))
  /\ fst (tick_sessions k heap p) o = heap o.
Proof.
  intros Hnd Hin Hdur. exact (tick_sessions_permanent o k heap p Hnd Hin Hdur).
Qed.

Lemma permanent_effect_persists_witness :
  In 1%nat (ongoing_effects
              (snd (tick_sessions 5 (store_of qi_deviation_last_session qi_stagnation)
                      (new_player [0%nat; 1%nat] SpiritStoneManager.init)))).
Proof.
  assert (Hnd : NoDup (ongoing_effects (new_player [0%nat; 1%nat] SpiritStoneManager.init))).
  { simpl. repeat constructor; simpl; intuition discriminate. }
  exact (proj1 (permanent_effect_persists
                  (store_of qi_deviation_last_session qi_stagnation)
                  (new_player [0%nat; 1%nat] SpiritStoneManager.init) 1%nat 5%nat
                  Hnd (or_intror (or_introl eq_refl)) eq_refl)).
Defined.

(** X20: when [cure_effect] succeeds it has removed exactly one effect,
    the first one in the list with the given name and the type
    ['negative'], paid that effect's catalog cost, which was affordable,
    and raised the cured count by one; the rest of the list keeps its
    order. *)
Theorem cure_effect_success (heap : Store) (p : Player) (effect_name : string) :
  fst (fst (cure_effect heap p effect_name)) = true ->
  exists o i cost,
    nth_error (ongoing_effects p) i = Some o
    /\ OngoingEffect.name (heap o) = effect_name
    /\ OngoingEffect.type (heap o) = "negative"%string
    /\ (forall j o', (j < i)%nat -> nth_error (ongoing_effects p) j = Some o' ->
          ~ (OngoingEffect.name (heap o') = effect_name
             /\ OngoingEffect.type (heap o') = "negative"%string))
    /\ EffectResolutionSystem.get_cure_cost effect_name = Some cost
    /\ SpiritStoneManager.can_afford_cost (spirit_stones p) cost = true
    /\ ongoing_effects (snd (cure_effect heap p effect_name))
       = firstn i (ongoing_effects p) ++ skipn (S i) (ongoing_effects p)
    /\ S (List.length (ongoing_effects (snd (cure_effect heap p effect_name))))
       = List.length (ongoing_effects p)
    /\ spirit_stones (snd (cure_effect heap p effect_name))
       = snd (SpiritStoneManager.pay_cost (spirit_stones p) cost)
    /\ effects_cured (snd (cure_effect heap p effect_name)) = effects_cured p + 1.
Proof.
  unfold cure_effect.
  destruct (find_negative heap (ongoing_effects p) effect_name 0)
    as [[o i] |] eqn:Hfind; [| discriminate].
  destruct (find_negative_first _ _ _ _ _ _ Hfind)
    as (j & Hi & Hnth & Hname & Htype & Hfirst).
  simpl in Hi. subst j.
  unfold EffectResolutionSystem.can_cure_effect, EffectResolutionSystem.cure_effect.
  destruct (EffectResolutionSystem.get_cure_cost effect_name)
    as [[| item cost] |] eqn:Hcost; try discriminate.
  destruct (SpiritStoneManager.can_afford_cost (spirit_stones p) (item :: cost))
    eqn:Hafford; [| discriminate].
  cbn [negb].
  destruct (SpiritStoneManager.pay_cost (spirit_stones p) (item :: cost))
    as [paid inv'] eqn:Hpay.
  destruct paid; [| discriminate].
  intros _. exists o, i, (item :: cost).
  cbn [fst snd ongoing_effects spirit_stones effects_cured].
  repeat split; try assumption.
  - apply pop_firstn_skipn.
  - rewrite pop_firstn_skipn, length_app, length_firstn, length_skipn.
    assert (i < List.length (ongoing_effects p))%nat
      by (apply nth_error_Some; congruence).
    lia.
  - rewrite Hpay. reflexivity.
Qed.

Lemma cure_effect_success_witness :
  effects_cured
    (snd (cure_effect (store_of qi_stagnation heart_demon)
            (new_player [1%nat; 0%nat] SpiritStoneManager.init) "Qi Stagnation"))
  = 1
  /\ ongoing_effects
       (snd (cure_effect (store_of qi_stagnation heart_demon)
               (new_player [1%nat; 0%nat] SpiritStoneManager.init) "Qi Stagnation"))
     = [1%nat].
Proof.
  destruct (cure_effect_success (store_of qi_stagnation heart_demon)
              (new_player [1%nat; 0%nat] SpiritStoneManager.init) "Qi Stagnation"
              eq_refl) as (o & i & cost & _ & _ & _ & _ & _ & _ & _ & _ & _ & Hcured).
  split; [exact Hcured | reflexivity].
Defined.

(** X21: every effect that [get_curable_effects] lists for the player's
    own inventory and effect list can really be cured: [cure_effect]
    with its name succeeds. *)
Theorem curable_effects_are_cured (heap : Store) (p : Player) (o : obj_id) :
  In o (get_curable_effects (spirit_stones p) heap (ongoing_effects p)) ->
  fst (fst (cure_effect heap p (OngoingEffect.name (heap o)))) = true.
Proof.
  intros Hcurable. unfold get_curable_effects in Hcurable.
  apply filter_In in Hcurable as [Hin Hcheck].
  apply andb_prop in Hcheck as [Htype Hcan].
  apply String.eqb_eq in Htype.
  unfold cure_effect.
  destruct (find_negative heap (ongoing_effects p) (OngoingEffect.name (heap o)) 0)
    as [[o' i] |] eqn:Hfind.
  - rewrite Hcan. cbn [negb].
    pose proof (cure_after_can_cure _ _ Hcan) as Hpaid.
    destruct (EffectResolutionSystem.cure_effect (spirit_stones p)
                (OngoingEffect.name (heap o))) as [paid inv'].
    cbn [fst] in Hpaid. subst paid. reflexivity.
  - exfalso. exact (find_negative_found _ _ _ 0%nat o Hin eq_refl Htype Hfind).
Qed.

Lemma curable_effects_are_cured_witness :
  fst (fst (cure_effect (store_of qi_stagnation heart_demon)
              (new_player [1%nat; 0%nat] SpiritStoneManager.init)
              (OngoingEffect.name (store_of qi_stagnation heart_demon 0%nat))))
  = true.
Proof.
  apply curable_effects_are_cured. vm_compute. left. reflexivity.
Defined.

End EffectExtras.

(** ** Encounter selection and tracking *)

Section EncounterLemmas.

(** The candidates left by the variety rule when the last two
    encounter types are [a] and [b]. *)
Lemma non_recent_types a b t :
  In t (filter (fun t => negb (existsb (fun t' => if encounter_type_eq_dec t t'
                                                  then true else false) [a; b]))
               all_encounter_types) ->
  t <> a /\ t <> b.
Proof.
  destruct a, b; simpl; intuition (subst; discriminate).
Qed.

(** [min(x, cap)] is never above the cap, a NaN [x] included. *)
Lemma py_min_capped x cap :
  flt cap cap = false -> flt cap (py_min x cap) = false.
Proof.
  intros Hcap. unfold py_min.
  destruct (flt cap x) eqn:Hx; assumption.
Qed.

Lemma skipn_last_two {A : Type} (l : list A) :
  (2 <= List.length l)%nat ->
  exists a b, skipn (List.length l - 2) l = [a; b].
Proof.
  intros Hlen.
  pose proof (length_skipn (List.length l - 2) l) as Hskip.
  destruct (skipn (List.length l - 2) l) as [| a [| b [| c rest]]];
    simpl in Hskip; try lia.
  exists a, b. reflexivity.
Qed.

End EncounterLemmas.

Section EncounterExtras.

Import EncounterManager.

(** X22: whatever the base chance and the length of the drought, the
    encounter chance never exceeds the 40% cap. *)
Theorem encounter_chance_capped (self : SmartEncounterManager) (current_session : Z) :
  flt (dec 4 1) (_calculate_encounter_chance self current_session) = false.
Proof.
  unfold _calculate_encounter_chance.
  apply py_min_capped. vm_compute. reflexivity.
Qed.

(** X23: variety: once two encounters are on record, the type that is
    selected is neither of the last two; and the selection never runs
    out of candidates (position 0 can always be drawn, and so can
    position 1). *)
Theorem select_encounter_type_variety (self : SmartEncounterManager) :
  (exists t0 t1,
      _select_encounter_type self 0 = Some t0
      /\ _select_encounter_type self 1 = Some t1)
  /\ forall draw t,
       (2 <= List.length (recent_encounter_types self))%nat ->
       _select_encounter_type self draw = Some t ->
       ~ In t (skipn (List.length (recent_encounter_types self) - 2)
                     (recent_encounter_types self)).
Proof.
  unfold _select_encounter_type, random_choices.
  destruct (2 <=? List.length (recent_encounter_types self))%nat eqn:Hlen.
  - apply Nat.leb_le in Hlen.
    destruct (skipn_last_two _ Hlen) as (a & b & ->).
    split.
    + destruct a, b; simpl; eexists _, _; split; reflexivity.
    + intros draw t _ Hdraw.
      assert (Hin : In t (filter
                            (fun t => negb (existsb
                                              (fun t' => if encounter_type_eq_dec t t'
                                                         then true else false) [a; b]))
                            all_encounter_types)).
      { destruct (filter _ all_encounter_types) as [| c rest] eqn:Hfilter.
        - exfalso. destruct a, b; simpl in Hfilter; discriminate.
        - exact (nth_error_In _ _ Hdraw). }
      destruct (non_recent_types a b t Hin) as [Ha Hb].
      intros [<- | [<- | []]]; congruence.
  - split; [simpl; eexists _, _; split; reflexivity |].
    intros draw t Hlen'. apply Nat.leb_le in Hlen'. congruence.
Qed.

Lemma select_encounter_type_variety_witness :
  ~ In INSIGHT
       (skipn (List.length [ANOMALY; BOTTLENECK; TECHNIQUE] - 2)
              [ANOMALY; BOTTLENECK; TECHNIQUE]).
Proof.
  exact (proj2 (select_encounter_type_variety
                  (mkSmartEncounterManager 7 3 [ANOMALY; BOTTLENECK; TECHNIQUE] 0 (dec 6 2)))
               0%nat INSIGHT ltac:(simpl; lia) eq_refl).
Defined.

(** The history after an encounter: the new type appended, the oldest
    entry dropped once there are more than five. *)
Lemma trim_history_length (recent : list EncounterType) t :
  (List.length recent <= 5)%nat ->
  (List.length (if (5 <? List.length (recent ++ [t]))%nat
                then tl (recent ++ [t]) else recent ++ [t]) <= 5)%nat.
Proof.
  intros Hlen.
  destruct (5 <? List.length (recent ++ [t]))%nat eqn:Hfive.
  - destruct recent as [| x rest]; simpl in *; [lia |].
    rewrite length_app. simpl. rewrite length_app in Hfive. simpl in *. lia.
  - apply Nat.ltb_ge in Hfive. exact Hfive.
Qed.

Lemma trim_history_last (recent : list EncounterType) t d :
  last (if (5 <? List.length (recent ++ [t]))%nat
        then tl (recent ++ [t]) else recent ++ [t]) d = t.
Proof.
  destruct (5 <? List.length (recent ++ [t]))%nat eqn:Hfive.
  - destruct recent as [| x rest]; [simpl in Hfive; discriminate |].
    cbn [app tl]. apply last_last.
  - apply last_last.
Qed.

(** X24: [process_encounter] keeps its books: the history never grows
    past five entries; when an encounter fires the quiet-session
    counter restarts at 0, the session is recorded and the chosen type
    is the newest history entry; when none fires the counter goes up by
    one and history and last session are unchanged.  Called without a
    session number, it uses and advances its own session counter,
    which starts at 0. *)
Theorem process_encounter_tracking {E : Type} (st st' : EncounterState)
        (current_session : option Z) (roll : float) (draw : nat)
        (encounter : EncounterType -> E) (result : option (string * E)) :
  (List.length (recent_encounter_types (manager st)) <= 5)%nat ->
  process_encounter st current_session roll draw encounter = Some (result, st') ->
  (List.length (recent_encounter_types (manager st')) <= 5)%nat
  /\ base_chance (manager st') = base_chance (manager st)
  /\ _session_counter st'
     = match current_session with
       | Some _ => _session_counter st
       | None => Some (SaveData.get (_session_counter st) 0 + 1)
       end
  /\ match result with
     | Some (value, _) =>
         sessions_since_encounter (manager st') = 0
         /\ last_encounter_session (manager st')
            = match current_session with
              | Some c => c
              | None => SaveData.get (_session_counter st) 0
              end
         /\ exists t,
              value = encounter_type_value t
              /\ last (recent_encounter_types (manager st')) t = t
              /\ In t (recent_encounter_types (manager st'))
     | None =>
         sessions_since_encounter (manager st')
         = sessions_since_encounter (manager st) + 1
         /\ recent_encounter_types (manager st') = recent_encounter_types (manager st)
         /\ last_encounter_session (manager st') = last_encounter_session (manager st)
     end.
Proof.
  intros Hlen. unfold process_encounter.
  destruct current_session as [c0 |]; cbv zeta;
    match goal with
    | |- context [flt roll ?chance] => destruct (flt roll chance)
    end;
    try (destruct (_select_encounter_type _ draw) as [t |]; [| discriminate]);
    intros [= <- <-];
    cbn [manager _session_counter recent_encounter_types base_chance
         sessions_since_encounter last_encounter_session];
    (split; [first [apply trim_history_length; exact Hlen | exact Hlen] |]);
    (split; [reflexivity |]);
    (split; [destruct (_session_counter st); reflexivity |]);
    try (repeat split; reflexivity);
    (split; [reflexivity |]);
    (split; [destruct (_session_counter st); reflexivity |]);
    exists t; (split; [reflexivity |]);
    (split; [apply trim_history_last |]);
    destruct (5 <? List.length (recent_encounter_types (manager st) ++ [t]))%nat eqn:Hfive;
    try (apply in_or_app; right; left; reflexivity);
    destruct (recent_encounter_types (manager st)) as [| x [| y rest]];
    try (simpl in Hfive; discriminate);
    cbn [app tl]; right; apply in_or_app; right; left; reflexivity.
Qed.

Lemma process_encounter_tracking_witness :
  sessions_since_encounter
    (manager (mkEncounterState
                (mkSmartEncounterManager 0 0 [BOTTLENECK] 0 (dec 6 2)) (Some 1)))
  = 0.
Proof.
  assert (Hrun :
            process_encounter (mkEncounterState EncounterManager.init None) None
              (dec 0 1) 0 (fun t => t)
            = Some (Some ("bottleneck"%string, BOTTLENECK),
                    mkEncounterState
                      (mkSmartEncounterManager 0 0 [BOTTLENECK] 0 (dec 6 2)) (Some 1)))
    by (vm_compute; reflexivity).
  assert (Hlen : (List.length
                    (recent_encounter_types
                       (manager (mkEncounterState EncounterManager.init None))) <= 5)%nat)
    by (simpl; lia).
  exact (proj1 (proj2 (proj2 (proj2
           (process_encounter_tracking _ _ _ _ _ _ _ Hlen Hrun))))).
Defined.

End EncounterExtras.

(** ** Saving and loading *)

Section SaveLemmas.

Lemma load_spirit_stones_unnamed (items : list (string * Z)) (grade : SpiritStoneGrade) :
  forall inv,
    (forall item, In item items -> grade_of_value (fst item) <> Some grade) ->
    inv_get (load_spirit_stones inv items) grade = inv_get inv grade.
Proof.
  unfold load_spirit_stones.
  induction items as [| item rest IH]; intros inv Hunnamed; [reflexivity |].
  cbn [fold_left]. rewrite IH.
  - pose proof (Hunnamed item (or_introl eq_refl)) as Hitem.
    destruct (grade_of_value (fst item)) as [g |]; [| reflexivity].
    apply inv_get_set_other. congruence.
  - intros item' Hin. apply Hunnamed. right. exact Hin.
Qed.

Lemma realm_value_parses realm : realm_of_value (realm_value realm) = Some realm.
Proof. destruct realm; reflexivity. Qed.

End SaveLemmas.

Section SaveExtras.

(** X25: the value strings of the two enumerations parse back to their
    members: [CultivationRealm(realm.value)] is [realm] and
    [SpiritStoneGrade(grade.value)] is [grade]. *)
Theorem enum_value_round_trip :
  (forall realm, realm_of_value (realm_value realm) = Some realm)
  /\ (forall grade, grade_of_value (grade_value grade) = Some grade).
Proof.
  split; [exact realm_value_parses | intros grade; destruct grade; reflexivity].
Qed.


(** X27: saving and loading give the player back: realm, stage,
    experience, foundation quality, active effects, all five stone
    counts and the cured count survive [to_save_data] followed by
    [from_save_data]. *)
Theorem save_load_round_trip (p : Player) :
  from_save_data (to_save_data p) = p.
Proof.
  destruct p as [r st ex fq effs [l m h pk dv] cured].
  unfold from_save_data, to_save_data.
  cbn [SaveData.realm SaveData.stage SaveData.experience SaveData.foundation_quality
       SaveData.ongoing_effects SaveData.spirit_stones SaveData.effects_cured
       SaveData.get realm stage experience
       foundation_quality ongoing_effects spirit_stones
       effects_cured].
  rewrite realm_value_parses.
  reflexivity.
Qed.

(** X28: loading only overwrites the grades a save names: a grade that
    no item of the saved stone dictionary names (a missing or
    misspelt key) keeps the starting count of a new player. *)
Theorem load_keeps_unnamed_grade (save_data : SaveData.t)
        (items : list (string * Z)) (grade : SpiritStoneGrade) :
  SaveData.spirit_stones save_data = Some items ->
  (forall item, In item items -> grade_of_value (fst item) <> Some grade) ->
  inv_get (spirit_stones (from_save_data save_data)) grade
  = inv_get SpiritStoneManager.init grade.
Proof.
  intros Hitems Hunnamed. unfold from_save_data. rewrite Hitems.
  cbn [spirit_stones]. apply load_spirit_stones_unnamed. exact Hunnamed.
Qed.

Lemma load_keeps_unnamed_grade_witness :
  inv_get (spirit_stones
             (from_save_data
                (SaveData.mk None None None None None
                   (Some [("Low-Grade"%string, 7); ("mid"%string, 9)]) None))) MID
  = 15.
Proof.
  apply (load_keeps_unnamed_grade _ [("Low-Grade"%string, 7); ("mid"%string, 9)] MID);
    [reflexivity |].
  intros item [<- | [<- | []]]; vm_compute; discriminate.
Defined.

End SaveExtras.

Section NotFound.

Import EnhancedPlayer.

Lemma find_negative_none heap effect_name (effects : list obj_id) :
  forall i0,
    find_negative heap effects effect_name i0 = None ->
    forall o, In o effects ->
              ~ (OngoingEffect.name (heap o) = effect_name
                 /\ OngoingEffect.type (heap o) = "negative"%string).
Proof.
  intros i0 Hnone o Hin [Hname Htype].
  exact (find_negative_found heap effect_name effects i0 o Hin Hname Htype Hnone).
Qed.

(** X29: [cure_effect] answers "not found or not negative" exactly when
    none of the player's negative effects ([get_negative_effects]) has
    the given name; then nothing is paid and nothing removed. *)
Theorem cure_effect_not_found (heap : Store) (p : Player) (effect_name : string) :
  existsb (fun o => String.eqb (OngoingEffect.name (heap o)) effect_name)
          (get_negative_effects heap p) = false ->
  cure_effect heap p effect_name = ((false, NotFoundOrNotNegative), p).
Proof.
  intros Hnone. unfold cure_effect.
  destruct (find_negative heap (ongoing_effects p) effect_name 0)
    as [[o i] |] eqn:Hfind; [| reflexivity].
  exfalso.
  destruct (find_negative_first _ _ _ _ _ _ Hfind) as (j & _ & Hnth & Hname & Htype & _).
  assert (Hin : In o (get_negative_effects heap p)).
  { unfold get_negative_effects. apply filter_In. split.
    - exact (nth_error_In _ _ Hnth).
    - rewrite Htype. reflexivity. }
  assert (Hex : existsb (fun o => String.eqb (OngoingEffect.name (heap o)) effect_name)
                        (get_negative_effects heap p) = true).
  { apply existsb_exists. exists o. split; [exact Hin |].
    rewrite Hname. apply String.eqb_refl. }
  rewrite Hex in Hnone. discriminate.
Qed.

Lemma cure_effect_not_found_witness :
  cure_effect (store_of qi_stagnation heart_demon)
    (new_player [0%nat; 1%nat] SpiritStoneManager.init) "Void Taint"
  = ((false, NotFoundOrNotNegative),
     new_player [0%nat; 1%nat] SpiritStoneManager.init).
Proof.
  apply cure_effect_not_found. reflexivity.
Defined.

End NotFound.
